(** * aiLightBlocker Connector: a shallow embedding of [main.py]

    The script is a set of button handlers over the commands of a 3D host
    application.  The handlers are embedded as programs in a small
    state-and-exception monad; the host (the two widgets of the window and
    the part of the scene the commands look at) is an explicit record. *)

From Stdlib Require Import List String Ascii ZArith Bool Lia.
From Stdlib Require Import DecimalString DecimalZ.
Import ListNotations.

Local Open Scope string_scope.
Local Open Scope Z_scope.

(** ** Python values used by the script *)

(** [str(n)] for a Python integer. *)
Definition str_of_int (n : Z) : string := NilZero.string_of_int (Z.to_int n).

(** [needle in hay] on Python strings: [needle] occurs as a substring. *)
Fixpoint str_in (needle hay : string) : bool :=
  if String.prefix needle hay then true
  else match hay with
       | EmptyString => false
       | String _ rest => str_in needle rest
       end.

(** [x in xs] on a Python list of strings, and of integers. *)
Definition mem_str (x : string) (xs : list string) : bool :=
  existsb (String.eqb x) xs.

Definition mem_int (x : Z) (xs : list Z) : bool :=
  existsb (Z.eqb x) xs.

(** Truthiness of a query result that is [None] or a list:
    [if not r] holds for [None] and for the empty list. *)
Definition truthy {A} (r : option (list A)) : bool :=
  match r with
  | Some (_ :: _) => true
  | _ => false
  end.

(** [r or []]. *)
Definition or_empty {A} (r : option (list A)) : list A :=
  match r with
  | Some l => l
  | None => []
  end.

(** ** The index search of [connect_blocker] (lines 74-80) *)

(** [for idx in range(lo, lo + n): if idx not in current: return idx];
    [None] when the range is exhausted without a [break]. *)
Fixpoint first_not_in (current : list Z) (lo : Z) (n : nat) : option Z :=
  match n with
  | O => None
  | S n' => if mem_int lo current then first_not_in current (lo + 1) n'
            else Some lo
  end.

Definition search_ceiling : nat := 1000.

(** [next_index = 0], overwritten by the first index of [range(1000)] that is
    not in [current_indices]; the loop is entered only when
    [current_indices] is truthy. *)
Definition next_free_index (current_indices : option (list Z)) : Z :=
  if truthy current_indices then
    match first_not_in (or_empty current_indices) 0 search_ceiling with
    | Some idx => idx
    | None => 0
    end
  else 0.

(** [f"{light_shape}.aiFilters[{next_index}]"]. *)
Definition dest_attr (light_shape : string) (next_index : Z) : string :=
  light_shape ++ ".aiFilters[" ++ str_of_int next_index ++ "]".

(** ** The host application *)

(** What the script can observe of the host, and change in it.

    - [selection]: the current selection, [cmds.ls(sl=True)];
    - [lightBlockerField]: the text of the text field of that name;
    - [lightListTSL]: the items of the scroll list of that name, each with
      its "selected in the list" flag;
    - [nodes]: the names [cmds.objExists] accepts;
    - [children]: for a transform, the full paths of its child shapes;
    - [arrays]: the multi attributes that exist, as ["shape.attr"];
    - [links]: the connections, as (source plug, destination plug);
    - [locked]: destination plugs on which the host refuses to connect or
      disconnect. *)
Record World : Type := mkWorld {
  selection : list string;
  lightBlockerField : string;
  lightListTSL : list (string * bool);
  nodes : list string;
  children : list (string * list string);
  arrays : list string;
  links : list (string * string);
  locked : list string
}.

(** What a handler writes to the script editor. *)
Inductive Event : Type :=
| Warning (msg : string)
| Printed (msg : string).

(** A running handler sees the host and the output written so far. *)
Record Session : Type := mkSession {
  host : World;
  out : list Event
}.

(** A Python call either returns a value or raises. *)
Inductive result (A : Type) : Type :=
| Ok (a : A)
| Raised (e : string).
Arguments Ok {A} a.
Arguments Raised {A} e.

Definition M (A : Type) : Type := Session -> result A * Session.

Definition ret {A} (a : A) : M A := fun s => (Ok a, s).

Definition bind {A B} (m : M A) (k : A -> M B) : M B :=
  fun s => match m s with
           | (Ok a, s') => k a s'
           | (Raised e, s') => (Raised e, s')
           end.

Definition raise {A} (e : string) : M A := fun s => (Raised e, s).

(** [try: body / except Exception as e: handler(e)]. *)
Definition try_except {A} (body : M A) (handler : string -> M A) : M A :=
  fun s => match body s with
           | (Ok a, s') => (Ok a, s')
           | (Raised e, s') => handler e s'
           end.

Notation "x <- m ;; k" := (bind m (fun x => k))
  (at level 61, m at next level, right associativity).
Notation "m ;;; k" := (bind m (fun _ => k))
  (at level 61, right associativity).

(** [for x in xs: body(x)]. *)
Fixpoint for_each {A} (xs : list A) (body : A -> M unit) : M unit :=
  match xs with
  | [] => ret tt
  | x :: rest => body x ;;; for_each rest body
  end.

(** Queries read the host; commands replace it. *)
Definition query {A} (f : World -> result A) : M A :=
  fun s => (f (host s), s).

Definition command (f : World -> result World) : M unit :=
  fun s => match f (host s) with
           | Ok w => (Ok tt, mkSession w (out s))
           | Raised e => (Raised e, s)
           end.

Definition emit (ev : Event) : M unit :=
  fun s => (Ok tt, mkSession (host s) (out s ++ [ev])).

(** [cmds.warning(msg)] and [print(msg)]. *)
Definition warning (msg : string) : M unit := emit (Warning msg).
Definition print (msg : string) : M unit := emit (Printed msg).

(** A query result that is [None] when there is nothing to list. *)
Definition none_if_empty {A} (l : list A) : option (list A) :=
  match l with
  | [] => None
  | _ => Some l
  end.

(** The commands of [maya.cmds] that the script calls, each with the
    arguments the script gives it.  A query that names an object or an
    attribute the host does not have raises, as does a connection command
    the host refuses. *)
Module Cmds.

(** [cmds.ls(sl=True)]. *)
Definition ls_sl : M (list string) :=
  query (fun w => Ok (selection w)).

(** [cmds.textField("lightBlockerField", q=True, tx=True)]. *)
Definition textField_q : M string :=
  query (fun w => Ok (lightBlockerField w)).

(** [cmds.textField("lightBlockerField", e=True, tx=text)]. *)
Definition set_field (text : string) (w : World) : World :=
  mkWorld (selection w) text (lightListTSL w) (nodes w) (children w)
          (arrays w) (links w) (locked w).

Definition textField_e (text : string) : M unit :=
  command (fun w => Ok (set_field text w)).

Definition set_items (items : list (string * bool)) (w : World) : World :=
  mkWorld (selection w) (lightBlockerField w) items (nodes w) (children w)
          (arrays w) (links w) (locked w).

(** [cmds.textScrollList("lightListTSL", q=True, ai=True)]. *)
Definition textScrollList_ai : M (option (list string)) :=
  query (fun w => Ok (none_if_empty (map fst (lightListTSL w)))).

(** [cmds.textScrollList("lightListTSL", q=True, si=True)]. *)
Definition textScrollList_si : M (option (list string)) :=
  query (fun w =>
    Ok (none_if_empty (map fst (filter snd (lightListTSL w))))).

(** [cmds.textScrollList("lightListTSL", e=True, a=obj)]: a new,
    unselected item at the end. *)
Definition textScrollList_a (obj : string) : M unit :=
  command (fun w => Ok (set_items (lightListTSL w ++ [(obj, false)]) w)).

(** Removal of the first item with the given text. *)
Fixpoint remove_item (item : string) (items : list (string * bool))
  : list (string * bool) :=
  match items with
  | [] => []
  | (name, flag) :: rest =>
      if String.eqb name item then rest
      else (name, flag) :: remove_item item rest
  end.

(** [cmds.textScrollList("lightListTSL", e=True, ri=item)]. *)
Definition textScrollList_ri (item : string) : M unit :=
  command (fun w =>
    if mem_str item (map fst (lightListTSL w))
    then Ok (set_items (remove_item item (lightListTSL w)) w)
    else Raised ("Item not found: " ++ item)).

(** [cmds.objExists(name)]. *)
Definition objExists (name : string) : M bool :=
  query (fun w => Ok (mem_str name (nodes w))).

Fixpoint lookup_children (t : string) (tbl : list (string * list string))
  : list string :=
  match tbl with
  | [] => []
  | (name, shapes) :: rest =>
      if String.eqb name t then shapes else lookup_children t rest
  end.

(** [cmds.listRelatives(t, s=True, f=True)]: raises for a name that matches
    no object, is [None] for an object without shapes. *)
Definition listRelatives_s (t : string) : M (option (list string)) :=
  query (fun w =>
    if mem_str t (nodes w)
    then Ok (none_if_empty (lookup_children t (children w)))
    else Raised ("No object matches name: " ++ t)).

(** A plug is an element of the array attribute [attr] when its name
    continues [attr] with an index bracket. *)
Definition is_element_of (attr plug : string) : bool :=
  String.prefix (attr ++ "[") plug.

(** The index of an element plug ["attr[i]"] of [attr]. *)
Definition element_index (attr plug : string) : option Z :=
  if is_element_of attr plug then
    let n := String.length attr in
    let inner := substring (S n) (String.length plug - S n - 1) plug in
    if String.eqb plug (attr ++ "[" ++ inner ++ "]") then
      match NilZero.int_of_string inner with
      | Some d => Some (Z.of_int d)
      | None => None
      end
    else None
  else None.

Fixpoint filter_map {A B} (f : A -> option B) (l : list A) : list B :=
  match l with
  | [] => []
  | x :: rest => match f x with
                 | Some y => y :: filter_map f rest
                 | None => filter_map f rest
                 end
  end.

(** [cmds.getAttr(attr, multiIndices=True)]: the indices of the connected
    elements of [attr]. *)
Definition getAttr_multiIndices (attr : string) : M (option (list Z)) :=
  query (fun w =>
    if mem_str attr (arrays w)
    then Ok (none_if_empty
               (filter_map (fun l => element_index attr (snd l)) (links w)))
    else Raised ("No object matches name: " ++ attr)).

Definition set_links (ls : list (string * string)) (w : World) : World :=
  mkWorld (selection w) (lightBlockerField w) (lightListTSL w) (nodes w)
          (children w) (arrays w) ls (locked w).

Definition same_link (a b : string * string) : bool :=
  String.eqb (fst a) (fst b) && String.eqb (snd a) (snd b).

Definition has_link (l : string * string) (ls : list (string * string))
  : bool :=
  existsb (same_link l) ls.

(** [cmds.connectAttr(src, dst, f=True)]: the destination has to be an
    unlocked element of an existing array attribute; a connection that is
    already there is an error; with [f=True] another source feeding the
    destination is replaced. *)
Definition connectAttr_f (src dst : string) : M unit :=
  command (fun w =>
    if mem_str dst (locked w) then
      Raised ("The attribute '" ++ dst ++ "' is locked")
    else if negb (existsb (fun a => match element_index a dst with
                                    | Some _ => true
                                    | None => false
                                    end) (arrays w)) then
      Raised ("The destination attribute '" ++ dst ++ "' cannot be found.")
    else if has_link (src, dst) (links w) then
      Raised ("'" ++ src ++ "' is already connected to '" ++ dst ++ "'.")
    else
      Ok (set_links
            (filter (fun l => negb (String.eqb (snd l) dst)) (links w)
               ++ [(src, dst)]) w)).

(** The connections into the elements of [attr] as a flat list, the plug on
    [attr] followed by the plug at the other end. *)
Definition connections_of (attr : string) (ls : list (string * string))
  : list string :=
  flat_map (fun l => if is_element_of attr (snd l) then [snd l; fst l] else [])
           ls.

(** [cmds.listConnections(attr, plugs=True, connections=True)]. *)
Definition listConnections_pc (attr : string) : M (option (list string)) :=
  query (fun w =>
    if mem_str attr (arrays w)
    then Ok (none_if_empty (connections_of attr (links w)))
    else Raised ("No object matches name: " ++ attr)).

(** [cmds.disconnectAttr(src, dst)]. *)
Definition disconnectAttr (src dst : string) : M unit :=
  command (fun w =>
    if mem_str dst (locked w) then
      Raised ("The attribute '" ++ dst ++ "' is locked")
    else if negb (has_link (src, dst) (links w)) then
      Raised ("There is no connection from '" ++ src ++ "' to '" ++ dst
              ++ "' to disconnect")
    else
      Ok (set_links (filter (fun l => negb (same_link (src, dst) l))
                            (links w)) w)).

End Cmds.

(** ** The handlers of [main.py] *)

(** [pick_light_blocker] (lines 6-17). *)
Definition pick_light_blocker : M unit :=
  selection <- Cmds.ls_sl ;;
  match selection with
  | [] => warning "No objects selected to set as Light Blocker."
  | blocker :: _ => Cmds.textField_e blocker
  end.

(** [add_selected_lights] (lines 19-32). *)
Definition add_selected_lights : M unit :=
  selection <- Cmds.ls_sl ;;
  match selection with
  | [] => warning "No lights selected to add."
  | _ =>
      for_each selection (fun obj =>
        r <- Cmds.textScrollList_ai ;;
        let existing := or_empty r in
        if negb (mem_str obj existing)
        then Cmds.textScrollList_a obj
        else ret tt)
  end.

(** [remove_selected_lights] (lines 34-43). *)
Definition remove_selected_lights : M unit :=
  selected_in_list <- Cmds.textScrollList_si ;;
  if negb (truthy selected_in_list)
  then warning "No lights selected in the list to remove."
  else for_each (or_empty selected_in_list) Cmds.textScrollList_ri.

(** The [try] statement of [connect_blocker] (lines 86-90). *)
Definition connect_at (blocker dest : string) : M unit :=
  try_except
    (Cmds.connectAttr_f (blocker ++ ".message") dest ;;;
     print ("Connected " ++ blocker ++ ".message -> " ++ dest))
    (fun e =>
       warning ("Could not connect " ++ blocker ++ ".message -> " ++ dest
                ++ ": " ++ e)).

Definition no_shape_warning (light_transform : string) : string :=
  "No shape found under '" ++ light_transform ++ "'. Skipping...".

(** The body of the loop over the lights in [connect_blocker]
    (lines 61-90). *)
Definition connect_light (blocker light_transform : string) : M unit :=
  r <- Cmds.listRelatives_s light_transform ;;
  let shapes := or_empty r in
  match shapes with
  | [] => warning (no_shape_warning light_transform)
  | light_shape :: _ =>
      let multi_attr := light_shape ++ ".aiFilters" in
      current_indices <- Cmds.getAttr_multiIndices multi_attr ;;
      let next_index := next_free_index current_indices in
      connect_at blocker (dest_attr light_shape next_index)
  end.

(** [not blocker or not cmds.objExists(blocker)]: the host is asked only
    about a non-empty name. *)
Definition blocker_invalid (blocker : string) : M bool :=
  if (blocker =? "")%string then ret true
  else exists_ <- Cmds.objExists blocker ;; ret (negb exists_).

(** [connect_blocker] (lines 45-90). *)
Definition connect_blocker : M unit :=
  blocker <- Cmds.textField_q ;;
  invalid <- blocker_invalid blocker ;;
  if invalid
  then warning "Invalid or no Light Blocker specified."
  else
    lights <- Cmds.textScrollList_ai ;;
    if negb (truthy lights)
    then warning "No lights in the list to connect."
    else for_each (or_empty lights) (connect_light blocker).

(** The [try] statement of [disconnect_blocker] (lines 131-135). *)
Definition disconnect_at (src_plug dest_plug : string) : M unit :=
  try_except
    (Cmds.disconnectAttr src_plug dest_plug ;;;
     print ("Disconnected " ++ src_plug ++ " -> " ++ dest_plug))
    (fun e =>
       warning ("Could not disconnect " ++ src_plug ++ " -> " ++ dest_plug
                ++ ": " ++ e)).

(** The [if] statement inside the pair loop of [disconnect_blocker]
    (lines 129-135). *)
Definition disconnect_pair (blocker dest_plug src_plug : string) : M unit :=
  if (blocker ++ ".message" =? src_plug)%string
     && str_in ".aiFilters[" dest_plug
  then disconnect_at src_plug dest_plug
  else ret tt.

(** [for i in range(0, len(connections), 2)] with [connections[i]] and
    [connections[i+1]] (lines 123-135); an odd tail has no
    [connections[i+1]]. *)
Fixpoint disconnect_pairs (blocker : string) (connections : list string)
  : M unit :=
  match connections with
  | [] => ret tt
  | dest_plug :: src_plug :: rest =>
      disconnect_pair blocker dest_plug src_plug ;;;
      disconnect_pairs blocker rest
  | [_] => raise "list index out of range"
  end.

(** The body of the loop over the lights in [disconnect_blocker]
    (lines 108-135). *)
Definition disconnect_light (blocker light_transform : string) : M unit :=
  r <- Cmds.listRelatives_s light_transform ;;
  let shapes := or_empty r in
  match shapes with
  | [] => warning (no_shape_warning light_transform)
  | light_shape :: _ =>
      c <- Cmds.listConnections_pc (light_shape ++ ".aiFilters") ;;
      disconnect_pairs blocker (or_empty c)
  end.

(** [disconnect_blocker] (lines 92-135). *)
Definition disconnect_blocker : M unit :=
  blocker <- Cmds.textField_q ;;
  invalid <- blocker_invalid blocker ;;
  if invalid
  then warning "Invalid or no Light Blocker specified."
  else
    lights <- Cmds.textScrollList_ai ;;
    if negb (truthy lights)
    then warning "No lights in the list to disconnect."
    else for_each (or_empty lights) (disconnect_light blocker).

(** The window as [build_ui] leaves it (lines 153 and 159): an empty text
    field and an empty list. *)
Definition build_ui (w : World) : World :=
  mkWorld (selection w) "" [] (nodes w) (children w) (arrays w) (links w)
          (locked w).

(** ** Vocabulary of the statements *)

(** [r] is the minimum excluded non-negative integer of [occ]. *)
Definition is_mex (occ : list Z) (r : Z) : Prop :=
  0 <= r /\ ~ In r occ /\ forall j, 0 <= j < r -> In j occ.

(** The names shown in the light list. *)
Definition light_names (w : World) : list string :=
  map fst (lightListTSL w).

(** A listed light resolves when the host knows the name and, if it has a
    shape, the first shape carries the filter array: none of the queries of
    the loop bodies raises for it. *)
Definition resolves (w : World) (light_transform : string) : bool :=
  mem_str light_transform (nodes w)
  && match Cmds.lookup_children light_transform (children w) with
     | [] => true
     | light_shape :: _ => mem_str (light_shape ++ ".aiFilters") (arrays w)
     end.

(** The listed light has no child shape. *)
Definition shapeless (w : World) (light_transform : string) : bool :=
  match Cmds.lookup_children light_transform (children w) with
  | [] => true
  | _ => false
  end.

(** One skip warning for each listed light without a shape, in order. *)
Definition skip_warnings (w : World) (lights : list string) : list Event :=
  map (fun t => Warning (no_shape_warning t)) (filter (shapeless w) lights).

(** [not blocker or not cmds.objExists(blocker)] is false. *)
Definition blocker_valid (w : World) : bool :=
  negb (lightBlockerField w =? "")%string
  && mem_str (lightBlockerField w) (nodes w).

(** The report the loop of [connect_blocker] writes for the listed light
    [light_transform]: the skip warning when it has no shape, and otherwise
    the outcome of the one connection attempt, on an element of the filter
    array of its first shape. *)
Definition reported (blocker : string) (w : World) (light_transform : string)
  (ev : Event) : Prop :=
  match Cmds.lookup_children light_transform (children w) with
  | [] => ev = Warning (no_shape_warning light_transform)
  | light_shape :: _ =>
      exists next_index,
        let dest := dest_attr light_shape next_index in
        ev = Printed ("Connected " ++ blocker ++ ".message -> " ++ dest)
        \/ exists e,
             ev = Warning ("Could not connect " ++ blocker ++ ".message -> "
                           ++ dest ++ ": " ++ e)
  end.

(** ** Host-level readings of the loops *)

(** What one round of the loop of [add_selected_lights] does to the items. *)
Definition add_name (obj : string) (items : list (string * bool))
  : list (string * bool) :=
  if mem_str obj (map fst items) then items else items ++ [(obj, false)].

(** What the whole loop of [add_selected_lights] does to the items. *)
Definition add_names (sel : list string) (items : list (string * bool))
  : list (string * bool) :=
  fold_left (fun items obj => add_name obj items) sel items.

(** The pairs of a flat [listConnections] result, each as (plug on the
    array, plug at the other end); an odd last entry is in no pair. *)
Fixpoint pairs_of (connections : list string) : list (string * string) :=
  match connections with
  | dest_plug :: src_plug :: rest => (dest_plug, src_plug) :: pairs_of rest
  | _ => []
  end.

(** The flat list of a list of pairs. *)
Definition flatten_pairs (ps : list (string * string)) : list string :=
  flat_map (fun p => [fst p; snd p]) ps.

(** The test of the [if] statement of the pair loop (line 129). *)
Definition passes_test (blocker dest_plug src_plug : string) : bool :=
  (blocker ++ ".message" =? src_plug)%string
  && str_in ".aiFilters[" dest_plug.

(** The pair [p] makes the pair loop take the link [l] away: it passes the
    test, the host does not refuse it, and it names [l]. *)
Definition severs (blocker : string) (lck : list string)
  (p l : string * string) : bool :=
  passes_test blocker (fst p) (snd p)
  && negb (mem_str (fst p) lck)
  && Cmds.same_link (snd p, fst p) l.

Definition severed (blocker : string) (lck : list string)
  (ps : list (string * string)) (l : string * string) : bool :=
  existsb (fun p => severs blocker lck p l) ps.

(** The link [l] feeds an unlocked element of [attr] from the message plug
    of [blocker]. *)
Definition removable (blocker attr : string) (lck : list string)
  (l : string * string) : bool :=
  (blocker ++ ".message" =? fst l)%string
  && Cmds.is_element_of attr (snd l)
  && negb (mem_str (snd l) lck).

(** The links that survive the round of [disconnect_blocker]'s loop for
    the light [t]. *)
Definition keep (blocker : string) (w : World) (t : string)
  (l : string * string) : bool :=
  if resolves w t then
    match Cmds.lookup_children t (children w) with
    | [] => true
    | light_shape :: _ =>
        negb (removable blocker (light_shape ++ ".aiFilters") (locked w) l)
    end
  else true.

(** The lights a loop gets to before a query raises. *)
Fixpoint reached (w : World) (lights : list string) : list string :=
  match lights with
  | [] => []
  | t :: rest => if resolves w t then t :: reached w rest else []
  end.

(** The links that survive [disconnect_blocker]. *)
Definition stays (w : World) (l : string * string) : bool :=
  if blocker_valid w then
    forallb (fun t => keep (lightBlockerField w) w t l)
            (reached w (light_names w))
  else true.

(** ** Sample scenes *)

(** One blocker [blk], one light [key] with its shape, nothing connected;
    [blk] is picked and [key] is in the list. *)
Definition studio : World :=
  mkWorld ["blk"] "blk" [("key", false)]
          ["blk"; "key"; "|key|keyShape"]
          [("key", ["|key|keyShape"])]
          ["|key|keyShape.aiFilters"] [] [].

(** The same scene with every element 0..999 of the filter array fed by
    another node. *)
Definition crowded : World :=
  Cmds.set_links
    (map (fun i => ("old.message", dest_attr "|key|keyShape" (Z.of_nat i)))
         (seq 0 1000))
    studio.

(** Three listed lights: [bare] has no shape, element 0 of the filter array
    of [key] is locked, [rim] is an ordinary light. *)
Definition stage : World :=
  mkWorld [] "blk" [("bare", false); ("key", false); ("rim", false)]
          ["blk"; "bare"; "key"; "|key|keyShape"; "rim"; "|rim|rimShape"]
          [("key", ["|key|keyShape"]); ("rim", ["|rim|rimShape"])]
          ["|key|keyShape.aiFilters"; "|rim|rimShape.aiFilters"]
          []
          ["|key|keyShape.aiFilters[0]"].

(** Four listed lights: [bare] has no shape, element 0 of the filter array
    of [key] is locked, the shape of [cube] is a mesh and has no filter
    array, [rim] is an ordinary light. *)
Definition patchy : World :=
  mkWorld [] "blk"
          [("bare", false); ("key", false); ("cube", false); ("rim", false)]
          ["blk"; "bare"; "key"; "|key|keyShape"; "cube"; "|cube|cubeShape";
           "rim"; "|rim|rimShape"]
          [("key", ["|key|keyShape"]); ("cube", ["|cube|cubeShape"]);
           ("rim", ["|rim|rimShape"])]
          ["|key|keyShape.aiFilters"; "|rim|rimShape.aiFilters"]
          []
          ["|key|keyShape.aiFilters[0]"].

(** [stage] with [blk] connected at element 0 of the filter array of
    [rim]. *)
Definition crossed : World :=
  Cmds.set_links [("blk.message", "|rim|rimShape.aiFilters[0]")] stage.

(** [studio] with [blk] connected at elements 0 and 3 of the filter array
    of [key] and another node at element 1. *)
Definition wired : World :=
  Cmds.set_links
    [("blk.message", "|key|keyShape.aiFilters[0]");
     ("old.message", "|key|keyShape.aiFilters[1]");
     ("blk.message", "|key|keyShape.aiFilters[3]")]
    studio.

(** [studio] with [blk] connected at element 0 of the filter array of
    [key], and that element locked. *)
Definition stuck : World :=
  mkWorld ["blk"] "blk" [("key", false)]
          ["blk"; "key"; "|key|keyShape"]
          [("key", ["|key|keyShape"])]
          ["|key|keyShape.aiFilters"]
          [("blk.message", "|key|keyShape.aiFilters[0]")]
          ["|key|keyShape.aiFilters[0]"].

(** [stuck] with [blk] also connected at element 3 of the filter array of
    [key] and another node at element 1; element 0 is still locked. *)
Definition jammed : World :=
  Cmds.set_links
    [("blk.message", "|key|keyShape.aiFilters[0]");
     ("old.message", "|key|keyShape.aiFilters[1]");
     ("blk.message", "|key|keyShape.aiFilters[3]")]
    stuck.

(** [studio] with [blk] connected at element 0 of the filter array of
    [key], and with a name ahead of [key] in the list whose object is no
    longer in the scene. *)
Definition haunted : World :=
  mkWorld ["blk"] "blk" [("ghost", false); ("key", false)]
          ["blk"; "key"; "|key|keyShape"]
          [("key", ["|key|keyShape"])]
          ["|key|keyShape.aiFilters"]
          [("blk.message", "|key|keyShape.aiFilters[0]")]
          [].

(** A shapeless [bare] and the light [key], whose filter array is fed at
    element 1 by a node other than the picked blocker [blk]. *)
Definition quiet : World :=
  mkWorld [] "blk" [("bare", false); ("key", false)]
          ["blk"; "bare"; "key"; "|key|keyShape"]
          [("key", ["|key|keyShape"])]
          ["|key|keyShape.aiFilters"]
          [("old.message", "|key|keyShape.aiFilters[1]")]
          [].

(** A light list with [key] and [bare] selected in it. *)
Definition chosen : World :=
  mkWorld [] "blk" [("key", true); ("rim", false); ("bare", true)]
          ["blk"; "bare"; "key"; "|key|keyShape"; "rim"; "|rim|rimShape"]
          [("key", ["|key|keyShape"]); ("rim", ["|rim|rimShape"])]
          ["|key|keyShape.aiFilters"; "|rim|rimShape.aiFilters"]
          [] [].

(** ** Vocabulary of the further properties *)

(** The indices [getAttr(attr, multiIndices=True)] lists for the links
    [ls]. *)
Definition occupied (attr : string) (ls : list (string * string)) : list Z :=
  Cmds.filter_map (fun l => Cmds.element_index attr (snd l)) ls.

(** The five buttons of the window and the handler each one runs
    (lines 154, 162, 163, 169 and 170). *)
Inductive Button : Type :=
| PickSelected
| AddSelectedLights
| RemoveSelected
| Connect
| Disconnect.

Definition pressed (b : Button) : M unit :=
  match b with
  | PickSelected => pick_light_blocker
  | AddSelectedLights => add_selected_lights
  | RemoveSelected => remove_selected_lights
  | Connect => connect_blocker
  | Disconnect => disconnect_blocker
  end.

(** The hosts a window can be in: [build_ui] opens it, a button runs its
    handler, and between two buttons the user and the host may change
    anything but the names held by the light list (the selection, the
    selected rows of the list, the scene). *)
Inductive reachable : World -> Prop :=
| reach_build_ui (w : World) : reachable (build_ui w)
| reach_button (b : Button) (w : World) (log : list Event) :
    reachable w -> reachable (host (snd (pressed b (mkSession w log))))
| reach_edit (w w' : World) :
    reachable w -> light_names w' = light_names w -> reachable w'.

(** The host just warned with [msg] and changed nothing. *)
Definition only_warns (m : M unit) (s : Session) : Prop :=
  exists msg, m s = (Ok tt, mkSession (host s) (out s ++ [Warning msg])).

(** Two hosts that differ at most in the connections, in the items of the
    light list, in the text of the blocker field. *)
Definition only_links_differ (w w' : World) : Prop :=
  w' = Cmds.set_links (links w') w.

Definition only_items_differ (w w' : World) : Prop :=
  w' = Cmds.set_items (lightListTSL w') w.

Definition only_field_differs (w w' : World) : Prop :=
  w' = Cmds.set_field (lightBlockerField w') w.

(** * Properties *)

(** ** Membership tests *)

Lemma mem_int_In (x : Z) (xs : list Z) : mem_int x xs = true <-> In x xs.
Proof.
  unfold mem_int. rewrite existsb_exists. split.
  - intros [y [Hy Heq]]. apply Z.eqb_eq in Heq. now subst.
  - intros H. exists x. split; [assumption | apply Z.eqb_refl].
Qed.

Lemma mem_str_In (x : string) (xs : list string) :
  mem_str x xs = true <-> In x xs.
Proof.
  unfold mem_str. rewrite existsb_exists. split.
  - intros [y [Hy Heq]]. apply String.eqb_eq in Heq. now subst.
  - intros H. exists x. split; [assumption | apply String.eqb_refl].
Qed.

Lemma mem_str_false (x : string) (xs : list string) :
  mem_str x xs = false <-> ~ In x xs.
Proof.
  rewrite <- mem_str_In. destruct (mem_str x xs); intuition congruence.
Qed.

(** ** The index search *)

Section IndexSearch.

Variable current : list Z.

Lemma first_not_in_found (n : nat) : forall lo r,
  first_not_in current lo n = Some r ->
  lo <= r < lo + Z.of_nat n /\ ~ In r current /\
  forall j, lo <= j < r -> In j current.
Proof.
  induction n as [|n IH]; intros lo r H; simpl in H; [discriminate|].
  destruct (mem_int lo current) eqn:Hlo.
  - apply IH in H. destruct H as [Hr [Hnot Hbelow]].
    split; [lia|]. split; [assumption|].
    intros j Hj. destruct (Z.eq_dec j lo) as [->|Hne].
    + now apply mem_int_In.
    + apply Hbelow. lia.
  - injection H as <-. split; [lia|]. split.
    + rewrite <- mem_int_In. congruence.
    + intros j Hj. lia.
Qed.

Lemma first_not_in_exhausted (n : nat) : forall lo,
  first_not_in current lo n = None ->
  forall j, lo <= j < lo + Z.of_nat n -> In j current.
Proof.
  induction n as [|n IH]; intros lo H j Hj; simpl in H; [lia|].
  destruct (mem_int lo current) eqn:Hlo; [|discriminate].
  destruct (Z.eq_dec j lo) as [->|Hne].
  - now apply mem_int_In.
  - apply (IH _ H). lia.
Qed.

End IndexSearch.

(** C1: whenever some index of [0, 1000) is free, the index search returns
    the least non-negative integer that is not occupied; it returns 0 for no
    indices at all, 1 for {0}, 3 for {0,1,2}, 0 for {1} and the first gap 1
    for {0,2}. *)
Theorem next_free_index_is_mex :
  (forall current_indices : option (list Z),
      (exists i, 0 <= i < 1000 /\ ~ In i (or_empty current_indices)) ->
      is_mex (or_empty current_indices) (next_free_index current_indices))
  /\ next_free_index None = 0
  /\ next_free_index (Some []) = 0
  /\ next_free_index (Some [0]) = 1
  /\ next_free_index (Some [0; 1; 2]) = 3
  /\ next_free_index (Some [1]) = 0
  /\ next_free_index (Some [0; 2]) = 1.
Proof.
  split; [|repeat split; reflexivity].
  intros cur [i [Hi Hfree]]. unfold next_free_index.
  destruct (truthy cur) eqn:Ht.
  - destruct (first_not_in (or_empty cur) 0 search_ceiling) as [r|] eqn:Hs.
    + apply first_not_in_found in Hs. destruct Hs as [Hr [Hnot Hbelow]].
      split; [lia|]. split; assumption.
    + exfalso. apply Hfree.
      apply (first_not_in_exhausted _ _ _ Hs). unfold search_ceiling.
      simpl Z.of_nat. lia.
  - assert (Hempty : or_empty cur = []).
    { destruct cur as [[|x l]|]; simpl in *; congruence. }
    rewrite Hempty. split; [lia|]. split; [intros []|]. intros j Hj. lia.
Qed.

Lemma next_free_index_is_mex_witness :
  is_mex [0; 2] (next_free_index (Some [0; 2])).
Proof.
  apply (proj1 next_free_index_is_mex (Some [0; 2])).
  exists 1. split; [lia|]. simpl. intros [H|[H|[]]]; discriminate.
Defined.



(** ** Running the monad *)

Ltac run_monad :=
  unfold bind, ret, raise, try_except, query, command, warning, print, emit.

Lemma or_empty_none_if_empty {A} (l : list A) :
  or_empty (none_if_empty l) = l.
Proof. destruct l; reflexivity. Qed.

Lemma truthy_none_if_empty {A} (l : list A) :
  truthy (none_if_empty l) = match l with [] => false | _ => true end.
Proof. destruct l; reflexivity. Qed.

Lemma blocker_invalid_run (blocker : string) (s : Session) :
  blocker_invalid blocker s
  = (Ok ((blocker =? "")%string || negb (mem_str blocker (nodes (host s)))),
     s).
Proof.
  unfold blocker_invalid. destruct (blocker =? "")%string; reflexivity.
Qed.

(** Both handlers open with the same two checks. *)
Lemma connect_blocker_run (s : Session) :
  connect_blocker s =
  let blocker := lightBlockerField (host s) in
  if (blocker =? "")%string || negb (mem_str blocker (nodes (host s)))
  then (Ok tt, mkSession (host s)
                 (out s ++ [Warning "Invalid or no Light Blocker specified."]))
  else match lightListTSL (host s) with
       | [] => (Ok tt, mkSession (host s)
                         (out s ++ [Warning "No lights in the list to connect."]))
       | _ => for_each (map fst (lightListTSL (host s)))
                       (connect_light blocker) s
       end.
Proof.
  unfold connect_blocker, bind at 1. unfold Cmds.textField_q, query at 1.
  unfold bind at 1. rewrite blocker_invalid_run. cbv zeta.
  destruct ((lightBlockerField (host s) =? "")%string
            || negb (mem_str (lightBlockerField (host s)) (nodes (host s))));
    [reflexivity|].
  unfold bind, Cmds.textScrollList_ai, query.
  rewrite truthy_none_if_empty, or_empty_none_if_empty.
  destruct (lightListTSL (host s)); reflexivity.
Qed.

Lemma disconnect_blocker_run (s : Session) :
  disconnect_blocker s =
  let blocker := lightBlockerField (host s) in
  if (blocker =? "")%string || negb (mem_str blocker (nodes (host s)))
  then (Ok tt, mkSession (host s)
                 (out s ++ [Warning "Invalid or no Light Blocker specified."]))
  else match lightListTSL (host s) with
       | [] => (Ok tt, mkSession (host s)
                   (out s ++ [Warning "No lights in the list to disconnect."]))
       | _ => for_each (map fst (lightListTSL (host s)))
                       (disconnect_light blocker) s
       end.
Proof.
  unfold disconnect_blocker, bind at 1. unfold Cmds.textField_q, query at 1.
  unfold bind at 1. rewrite blocker_invalid_run. cbv zeta.
  destruct ((lightBlockerField (host s) =? "")%string
            || negb (mem_str (lightBlockerField (host s)) (nodes (host s))));
    [reflexivity|].
  unfold bind, Cmds.textScrollList_ai, query.
  rewrite truthy_none_if_empty, or_empty_none_if_empty.
  destruct (lightListTSL (host s)); reflexivity.
Qed.

(** C7: with an empty blocker field, a blocker name that matches no object,
    or an empty light list, [connect_blocker] and [disconnect_blocker] each
    write one warning and return normally, the host left as it was. *)
Theorem input_checks_abort_without_mutation (s : Session) :
  lightBlockerField (host s) = ""
  \/ ~ In (lightBlockerField (host s)) (nodes (host s))
  \/ lightListTSL (host s) = [] ->
  (exists msg,
      connect_blocker s = (Ok tt, mkSession (host s) (out s ++ [Warning msg])))
  /\ (exists msg,
      disconnect_blocker s
      = (Ok tt, mkSession (host s) (out s ++ [Warning msg]))).
Proof.
  intros H. rewrite connect_blocker_run, disconnect_blocker_run. cbv zeta.
  destruct ((lightBlockerField (host s) =? "")%string
            || negb (mem_str (lightBlockerField (host s)) (nodes (host s))))
    eqn:Hinv.
  - split; eexists; reflexivity.
  - apply orb_false_iff in Hinv. destruct Hinv as [Hne Hex].
    apply negb_false_iff in Hex. apply mem_str_In in Hex.
    apply String.eqb_neq in Hne.
    destruct H as [H|[H|H]]; [contradiction|contradiction|].
    rewrite H. split; eexists; reflexivity.
Qed.

Lemma input_checks_abort_without_mutation_witness :
  exists msg,
    connect_blocker (mkSession (Cmds.set_field "gone" studio) [])
    = (Ok tt, mkSession (Cmds.set_field "gone" studio) [Warning msg]).
Proof.
  refine (proj1 (input_checks_abort_without_mutation
                   (mkSession (Cmds.set_field "gone" studio) []) _)).
  right. left. simpl. intros [H|[H|[H|[]]]]; discriminate.
Defined.

(** C9: with a non-empty selection [pick_light_blocker] makes the first
    selected object the text of the blocker field and touches nothing else;
    with an empty selection it writes a warning and the field keeps its
    text. *)
Theorem pick_stores_first_selected (s : Session) :
  (forall first others,
      selection (host s) = first :: others ->
      pick_light_blocker s
      = (Ok tt, mkSession (Cmds.set_field first (host s)) (out s))
      /\ lightBlockerField (Cmds.set_field first (host s)) = first)
  /\ (selection (host s) = [] ->
      exists msg,
        pick_light_blocker s
        = (Ok tt, mkSession (host s) (out s ++ [Warning msg]))).
Proof.
  split.
  - intros first others Hsel. split; [|reflexivity].
    unfold pick_light_blocker, Cmds.ls_sl, Cmds.textField_e. run_monad.
    rewrite Hsel. reflexivity.
  - intros Hsel. unfold pick_light_blocker, Cmds.ls_sl. run_monad.
    rewrite Hsel. eexists. reflexivity.
Qed.

Lemma pick_stores_first_selected_witness :
  pick_light_blocker
    (mkSession (mkWorld ["blk"; "key"] "" [] ["blk"; "key"] [] [] [] []) [])
  = (Ok tt,
     mkSession (mkWorld ["blk"; "key"] "blk" [] ["blk"; "key"] [] [] [] []) []).
Proof.
  exact (proj1 (proj1 (pick_stores_first_selected
           (mkSession (mkWorld ["blk"; "key"] "" [] ["blk"; "key"] [] [] [] [])
                      []))
         "blk" ["key"] eq_refl)).
Defined.

(** ** The light list *)

Lemma set_items_same (w : World) : Cmds.set_items (lightListTSL w) w = w.
Proof. destruct w; reflexivity. Qed.

Lemma session_eta (s : Session) : mkSession (host s) (out s) = s.
Proof. destruct s; reflexivity. Qed.

Lemma add_loop_run (sel : list string) : forall s,
  for_each sel (fun obj =>
    r <- Cmds.textScrollList_ai ;;
    let existing := or_empty r in
    if negb (mem_str obj existing)
    then Cmds.textScrollList_a obj
    else ret tt) s
  = (Ok tt,
     mkSession
       (Cmds.set_items (add_names sel (lightListTSL (host s))) (host s))
       (out s)).
Proof.
  induction sel as [|obj rest IH]; intros s.
  - cbn. unfold ret. now rewrite set_items_same, session_eta.
  - cbn [for_each].
    change (add_names (obj :: rest) (lightListTSL (host s)))
      with (add_names rest (add_name obj (lightListTSL (host s)))).
    unfold bind at 1.
    unfold bind at 1, Cmds.textScrollList_ai, query at 1.
    cbv zeta. rewrite or_empty_none_if_empty. unfold add_name.
    destruct (mem_str obj (map fst (lightListTSL (host s)))); cbn [negb].
    + unfold ret at 1. rewrite IH. reflexivity.
    + unfold Cmds.textScrollList_a, command. rewrite IH. reflexivity.
Qed.

Lemma add_selected_lights_run (s : Session) :
  add_selected_lights s =
  match selection (host s) with
  | [] => (Ok tt, mkSession (host s)
                    (out s ++ [Warning "No lights selected to add."]))
  | sel =>
      (Ok tt,
       mkSession
         (Cmds.set_items (add_names sel (lightListTSL (host s))) (host s))
         (out s))
  end.
Proof.
  unfold add_selected_lights, bind at 1. unfold Cmds.ls_sl, query at 1.
  destruct (selection (host s)) as [|o sel]; [reflexivity|].
  apply add_loop_run.
Qed.

Lemma add_names_cons (o : string) (rest : list string)
  (items : list (string * bool)) :
  add_names (o :: rest) items = add_names rest (add_name o items).
Proof. reflexivity. Qed.

Lemma add_names_extend (sel : list string) : forall items,
  exists added, add_names sel items = (items ++ added)%list.
Proof.
  induction sel as [|o rest IH]; intros items.
  - exists []. cbn. now rewrite app_nil_r.
  - rewrite add_names_cons. destruct (IH (add_name o items)) as [added Hadd].
    rewrite Hadd. unfold add_name. destruct (mem_str o (map fst items)).
    + now exists added.
    + exists ((o, false) :: added). now rewrite <- app_assoc.
Qed.

Lemma add_names_count (sel : list string) : forall items x,
  count_occ string_dec (map fst (add_names sel items)) x
  = if Nat.eqb (count_occ string_dec (map fst items) x) 0
    then (if mem_str x sel then 1%nat else 0%nat)
    else count_occ string_dec (map fst items) x.
Proof.
  induction sel as [|o rest IH]; intros items x.
  - cbn. destruct (Nat.eqb_spec (count_occ string_dec (map fst items) x) 0);
      congruence.
  - rewrite add_names_cons, IH. unfold add_name.
    change (mem_str x (o :: rest))
      with ((x =? o)%string || mem_str x rest).
    destruct (mem_str o (map fst items)) eqn:Hmem.
    + destruct (Nat.eqb_spec (count_occ string_dec (map fst items) x) 0)
        as [Hz|Hnz]; [|reflexivity].
      destruct (String.eqb_spec x o) as [->|Hne]; [|reflexivity].
      apply mem_str_In in Hmem.
      apply (count_occ_In string_dec) in Hmem. lia.
    + rewrite map_app, count_occ_app.
      cbn [map fst count_occ]. apply mem_str_false in Hmem.
      destruct (string_dec o x) as [->|Hne].
      * apply (count_occ_not_In string_dec) in Hmem. rewrite Hmem.
        rewrite String.eqb_refl. reflexivity.
      * rewrite Nat.add_0_r.
        destruct (String.eqb_spec x o) as [->|_]; [congruence|].
        reflexivity.
Qed.

Lemma add_names_present (sel : list string) : forall items,
  (forall x, In x sel -> In x (map fst items)) ->
  add_names sel items = items.
Proof.
  induction sel as [|o rest IH]; intros items Hin; [reflexivity|].
  rewrite add_names_cons. unfold add_name.
  assert (Ho : mem_str o (map fst items) = true).
  { apply mem_str_In, Hin. now left. }
  rewrite Ho. apply IH. intros x Hx. apply Hin. now right.
Qed.

(** C5: [add_selected_lights] keeps the entries of the light list and
    appends to them; a selected name that was not in the list is in it
    exactly once afterwards, a name that was in the list keeps its number
    of entries, a selection of names that are all present leaves the host
    unchanged, and a list without duplicates stays without duplicates. *)
Theorem add_selected_lights_no_duplicates (s : Session) :
  exists s',
    add_selected_lights s = (Ok tt, s')
    /\ (exists added,
          lightListTSL (host s') = (lightListTSL (host s) ++ added)%list)
    /\ (forall x, In x (selection (host s)) ->
                  ~ In x (light_names (host s)) ->
                  count_occ string_dec (light_names (host s')) x = 1%nat)
    /\ (forall x, In x (light_names (host s)) ->
                  count_occ string_dec (light_names (host s')) x
                  = count_occ string_dec (light_names (host s)) x)
    /\ ((forall x, In x (selection (host s)) ->
                   In x (light_names (host s))) ->
        host s' = host s)
    /\ (NoDup (light_names (host s)) -> NoDup (light_names (host s'))).
Proof.
  rewrite add_selected_lights_run.
  destruct (selection (host s)) as [|o sel] eqn:Hsel.
  - eexists. split; [reflexivity|]. cbn [host].
    split; [exists []; now rewrite app_nil_r|].
    split; [intros x []|]. repeat split; auto.
  - eexists. split; [reflexivity|]. cbn [host]. unfold light_names.
    cbn [lightListTSL Cmds.set_items].
    split; [apply add_names_extend|].
    split; [|split; [|split]].
    + intros x Hx Hnot. rewrite add_names_count.
      apply (count_occ_not_In string_dec) in Hnot. rewrite Hnot.
      cbn [Nat.eqb]. apply mem_str_In in Hx. now rewrite Hx.
    + intros x Hx. rewrite add_names_count.
      apply (count_occ_In string_dec) in Hx.
      destruct (Nat.eqb_spec
                  (count_occ string_dec (map fst (lightListTSL (host s))) x)
                  0); [lia|reflexivity].
    + intros Hall. rewrite add_names_present by exact Hall.
      apply set_items_same.
    + intros Hnd. apply (NoDup_count_occ string_dec). intros x.
      rewrite add_names_count.
      rewrite (NoDup_count_occ string_dec) in Hnd. specialize (Hnd x).
      destruct (Nat.eqb (count_occ string_dec
                           (map fst (lightListTSL (host s))) x) 0);
        [destruct (mem_str x (o :: sel)); lia | exact Hnd].
Qed.

Lemma add_selected_lights_no_duplicates_witness :
  exists s',
    add_selected_lights
      (mkSession (mkWorld ["key"; "rim"; "key"] "" [("key", false)]
                          ["key"; "rim"] [] [] [] []) [])
    = (Ok tt, s')
    /\ light_names (host s') = ["key"; "rim"].
Proof.
  destruct (add_selected_lights_no_duplicates
              (mkSession (mkWorld ["key"; "rim"; "key"] "" [("key", false)]
                                  ["key"; "rim"] [] [] [] []) []))
    as [s' [Hrun _]].
  exists s'. split; [exact Hrun|].
  vm_compute in Hrun. injection Hrun as <-. reflexivity.
Defined.

(** ** Loops *)

Lemma for_each_app {A} (body : A -> M unit) (pre post : list A) : forall s,
  for_each (pre ++ post) body s
  = match for_each pre body s with
    | (Ok _, s1) => for_each post body s1
    | (Raised e, s1) => (Raised e, s1)
    end.
Proof.
  induction pre as [|x pre IH]; intros s; [reflexivity|].
  cbn [app for_each]. unfold bind.
  destruct (body x s) as [[[]|e] s1]; [apply IH | reflexivity].
Qed.

(** ** Connecting *)

Lemma set_links_same (w : World) : Cmds.set_links (links w) w = w.
Proof. destruct w; reflexivity. Qed.

Lemma connectAttr_f_cases (src dst : string) (s : Session) :
  (exists ls, Cmds.connectAttr_f src dst s
              = (Ok tt, mkSession (Cmds.set_links ls (host s)) (out s)))
  \/ (exists e, Cmds.connectAttr_f src dst s = (Raised e, s)).
Proof.
  unfold Cmds.connectAttr_f, command.
  destruct (mem_str dst (locked (host s))); [right; eexists; reflexivity|].
  destruct (negb _); [right; eexists; reflexivity|].
  destruct (Cmds.has_link _ _); [right; eexists; reflexivity|].
  left. eexists. reflexivity.
Qed.

(** The [try] statement never lets an exception out, and reports once. *)
Lemma connect_at_cases (blocker dest : string) (s : Session) :
  exists ls ev,
    connect_at blocker dest s
    = (Ok tt, mkSession (Cmds.set_links ls (host s)) (out s ++ [ev])).
Proof.
  unfold connect_at, try_except, bind.
  destruct (connectAttr_f_cases (blocker ++ ".message") dest s)
    as [[ls H]|[e H]]; rewrite H.
  - exists ls. eexists. reflexivity.
  - exists (links (host s)). eexists. unfold warning, emit.
    rewrite set_links_same. reflexivity.
Qed.

Lemma connect_light_resolved (blocker t : string) (s : Session) :
  resolves (host s) t = true ->
  exists ls ev,
    connect_light blocker t s
    = (Ok tt, mkSession (Cmds.set_links ls (host s)) (out s ++ [ev])).
Proof.
  unfold resolves. intros H. apply andb_true_iff in H. destruct H as [Hn Ha].
  unfold connect_light, bind at 1. unfold Cmds.listRelatives_s, query at 1.
  rewrite Hn. cbv zeta. rewrite or_empty_none_if_empty.
  destruct (Cmds.lookup_children t (children (host s))) as [|sh more].
  - exists (links (host s)). eexists. unfold warning, emit.
    rewrite set_links_same. reflexivity.
  - unfold bind, Cmds.getAttr_multiIndices, query. rewrite Ha.
    apply connect_at_cases.
Qed.

Lemma connect_lights_resolved (blocker : string) (lights : list string) :
  forall s,
    forallb (resolves (host s)) lights = true ->
    exists ls evs,
      for_each lights (connect_light blocker) s
      = (Ok tt, mkSession (Cmds.set_links ls (host s)) (out s ++ evs))
      /\ List.length evs = List.length lights.
Proof.
  induction lights as [|t rest IH]; intros s Hres.
  - exists (links (host s)), []. split; [|reflexivity].
    cbn [for_each]. unfold ret.
    now rewrite set_links_same, app_nil_r, session_eta.
  - cbn [forallb] in Hres. apply andb_true_iff in Hres.
    destruct Hres as [Ht Hrest].
    destruct (connect_light_resolved blocker t s Ht) as [ls1 [ev H1]].
    cbn [for_each]. unfold bind. rewrite H1.
    destruct (IH (mkSession (Cmds.set_links ls1 (host s)) (out s ++ [ev])))
      as [ls2 [evs [H2 Hlen]]]; [exact Hrest|].
    rewrite H2. exists ls2, (ev :: evs). cbn [host out Cmds.set_links].
    split; [|cbn [List.length]; now rewrite Hlen].
    rewrite <- app_assoc. reflexivity.
Qed.

(** The [try] statement reports the connection or the refusal, naming the
    destination it was given. *)
Lemma connect_at_reports (blocker dest : string) (s : Session) :
  exists ls ev,
    connect_at blocker dest s
    = (Ok tt, mkSession (Cmds.set_links ls (host s)) (out s ++ [ev]))
    /\ (ev = Printed ("Connected " ++ blocker ++ ".message -> " ++ dest)
        \/ exists e,
             ev = Warning ("Could not connect " ++ blocker ++ ".message -> "
                           ++ dest ++ ": " ++ e)).
Proof.
  unfold connect_at, try_except, bind.
  destruct (connectAttr_f_cases (blocker ++ ".message") dest s)
    as [[ls H]|[e H]]; rewrite H.
  - exists ls. eexists. split; [reflexivity|]. now left.
  - exists (links (host s)). eexists. unfold warning, emit.
    rewrite set_links_same. split; [reflexivity|]. right. now exists e.
Qed.

Lemma connect_light_reports (blocker t : string) (s : Session) :
  resolves (host s) t = true ->
  exists ls ev,
    connect_light blocker t s
    = (Ok tt, mkSession (Cmds.set_links ls (host s)) (out s ++ [ev]))
    /\ reported blocker (host s) t ev.
Proof.
  unfold resolves, reported. intros H. apply andb_true_iff in H.
  destruct H as [Hn Ha].
  unfold connect_light, bind at 1. unfold Cmds.listRelatives_s, query at 1.
  rewrite Hn. cbv zeta. rewrite or_empty_none_if_empty.
  destruct (Cmds.lookup_children t (children (host s))) as [|sh more].
  - exists (links (host s)). eexists. unfold warning, emit.
    rewrite set_links_same. split; reflexivity.
  - unfold bind, Cmds.getAttr_multiIndices, query. rewrite Ha.
    match goal with
    | |- context [connect_at blocker (dest_attr sh ?i)] =>
        destruct (connect_at_reports blocker (dest_attr sh i) s)
          as [ls [ev [H Hev]]]; exists ls, ev; split; [exact H|]; now exists i
    end.
Qed.

Lemma connect_lights_reports (blocker : string) (lights : list string) :
  forall s,
    forallb (resolves (host s)) lights = true ->
    exists ls evs,
      for_each lights (connect_light blocker) s
      = (Ok tt, mkSession (Cmds.set_links ls (host s)) (out s ++ evs))
      /\ Forall2 (reported blocker (host s)) lights evs.
Proof.
  induction lights as [|t rest IH]; intros s Hres.
  - exists (links (host s)), []. split; [|constructor].
    cbn [for_each]. unfold ret.
    now rewrite set_links_same, app_nil_r, session_eta.
  - cbn [forallb] in Hres. apply andb_true_iff in Hres.
    destruct Hres as [Ht Hrest].
    destruct (connect_light_reports blocker t s Ht) as [ls1 [ev [H1 Hev]]].
    cbn [for_each]. unfold bind. rewrite H1.
    destruct (IH (mkSession (Cmds.set_links ls1 (host s)) (out s ++ [ev])))
      as [ls2 [evs [H2 Hall]]]; [exact Hrest|].
    rewrite H2. exists ls2, (ev :: evs). cbn [host out Cmds.set_links].
    split; [rewrite <- app_assoc; reflexivity|].
    constructor; [exact Hev|exact Hall].
Qed.

(** C8 as stated fails: in [patchy] the blocker is valid, [bare] is skipped
    with a warning and the refused connection for [key] is caught and
    reported, but the lights that remain are not all processed: the query
    for the filter array of [cube] raises outside the [try] statement and
    ends the handler, so that [rim], which [connect_light] on its own would
    connect, gets neither a connection nor a report. *)
Lemma connect_batch_ends_at_raising_query :
  blocker_valid patchy = true
  /\ light_names patchy = ["bare"; "key"; "cube"; "rim"]
  /\ connect_blocker (mkSession patchy [])
     = (Raised "No object matches name: |cube|cubeShape.aiFilters",
        mkSession patchy
          [Warning "No shape found under 'bare'. Skipping...";
           Warning ("Could not connect blk.message -> "
                    ++ "|key|keyShape.aiFilters[0]: The attribute "
                    ++ "'|key|keyShape.aiFilters[0]' is locked")])
  /\ connect_light "blk" "rim" (mkSession patchy [])
     = (Ok tt,
        mkSession
          (Cmds.set_links [("blk.message", "|rim|rimShape.aiFilters[0]")]
                          patchy)
          [Printed "Connected blk.message -> |rim|rimShape.aiFilters[0]"]).
Proof.
  split; [reflexivity|]. split; [reflexivity|]. split; reflexivity.
Qed.

(** C8, amended: in the loop of [connect_blocker], once the lights before
    [x] are done, a light [x] without a child shape costs one warning and a
    connection the host refuses for [x] costs one warning, and in both
    cases the handler goes on with the lights after [x] from there.  When
    every listed name resolves in the host, every light of the list is
    processed: the handler returns normally and has written one report per
    light, in the order of the list, the skip warning for a light without a
    shape and, for a light with a shape, either the connection made or the
    warning for the refused one. *)
Theorem connect_failures_are_per_light
  (s s1 : Session) (pre post : list string) (x : string) :
  let blocker := lightBlockerField (host s) in
  blocker <> "" ->
  In blocker (nodes (host s)) ->
  light_names (host s) = (pre ++ x :: post)%list ->
  for_each pre (connect_light blocker) s = (Ok tt, s1) ->
  (Cmds.listRelatives_s x s1 = (Ok None, s1) ->
   connect_blocker s
   = for_each post (connect_light blocker)
       (mkSession (host s1) (out s1 ++ [Warning (no_shape_warning x)])))
  /\ (forall light_shape more current_indices e,
        Cmds.listRelatives_s x s1 = (Ok (Some (light_shape :: more)), s1) ->
        Cmds.getAttr_multiIndices (light_shape ++ ".aiFilters") s1
        = (Ok current_indices, s1) ->
        let dest := dest_attr light_shape (next_free_index current_indices) in
        Cmds.connectAttr_f (blocker ++ ".message") dest s1 = (Raised e, s1) ->
        connect_blocker s
        = for_each post (connect_light blocker)
            (mkSession (host s1)
               (out s1 ++ [Warning ("Could not connect " ++ blocker
                                    ++ ".message -> " ++ dest ++ ": " ++ e)])))
  /\ (forallb (resolves (host s)) (light_names (host s)) = true ->
      exists s' evs,
        connect_blocker s = (Ok tt, s')
        /\ out s' = (out s ++ evs)%list
        /\ Forall2 (reported blocker (host s)) (light_names (host s)) evs).
Proof.
  intros blocker Hne Hex Hnames Hpre.
  assert (Hrun : connect_blocker s
                 = for_each (light_names (host s)) (connect_light blocker) s).
  { rewrite connect_blocker_run. cbv zeta. fold blocker.
    apply String.eqb_neq in Hne. apply mem_str_In in Hex.
    rewrite Hne, Hex. cbn [orb negb]. unfold light_names in *.
    destruct (lightListTSL (host s)); [|reflexivity].
    destruct pre; discriminate. }
  rewrite Hrun. split; [|split].
  - intros Hrel. rewrite Hnames, for_each_app, Hpre.
    cbn [for_each]. unfold bind at 1. unfold connect_light at 1.
    unfold bind at 1. rewrite Hrel. reflexivity.
  - intros sh more cur e Hrel Hget dest Hfail.
    rewrite Hnames, for_each_app, Hpre.
    cbn [for_each]. unfold bind at 1. unfold connect_light at 1.
    unfold bind at 1. rewrite Hrel. cbv beta iota zeta delta [or_empty].
    unfold bind at 1. rewrite Hget. fold dest.
    unfold connect_at, try_except. unfold bind at 1. rewrite Hfail.
    reflexivity.
  - intros Hres.
    destruct (connect_lights_reports blocker _ s Hres)
      as [ls [evs [H Hall]]].
    rewrite H. eexists. exists evs. split; [reflexivity|].
    split; [reflexivity|exact Hall].
Qed.

Lemma connect_failures_are_per_light_witness :
  connect_blocker (mkSession stage [])
  = for_each ["key"; "rim"] (connect_light "blk")
      (mkSession stage [Warning (no_shape_warning "bare")])
  /\ connect_blocker (mkSession stage [])
     = for_each ["rim"] (connect_light "blk")
         (mkSession stage
            [Warning (no_shape_warning "bare");
             Warning ("Could not connect blk.message -> "
                      ++ "|key|keyShape.aiFilters[0]: The attribute "
                      ++ "'|key|keyShape.aiFilters[0]' is locked")]).
Proof.
  split.
  - refine (proj1 (connect_failures_are_per_light
             (mkSession stage []) (mkSession stage []) [] ["key"; "rim"]
             "bare" _ _ _ _) _).
    + discriminate.
    + simpl. tauto.
    + reflexivity.
    + reflexivity.
    + reflexivity.
  - refine (proj1 (proj2 (connect_failures_are_per_light
             (mkSession stage [])
             (mkSession stage [Warning (no_shape_warning "bare")])
             ["bare"] ["rim"] "key" _ _ _ _))
             "|key|keyShape" [] None
             "The attribute '|key|keyShape.aiFilters[0]' is locked" _ _ _).
    + discriminate.
    + simpl. tauto.
    + reflexivity.
    + reflexivity.
    + reflexivity.
    + reflexivity.
    + reflexivity.
Defined.

(** ** Strings *)

Lemma append_assoc (a b c : string) : (a ++ b) ++ c = a ++ (b ++ c).
Proof. induction a as [|ch a IH]; simpl; [reflexivity | now rewrite IH]. Qed.

Lemma prefix_append (p k : string) : String.prefix p (p ++ k) = true.
Proof.
  induction p as [|ch p IH]; simpl.
  - destruct k; reflexivity.
  - destruct (ascii_dec ch ch) as [_|Hne]; [exact IH | now elim Hne].
Qed.

Lemma prefix_split (p : string) : forall d,
  String.prefix p d = true -> exists k, d = p ++ k.
Proof.
  induction p as [|ch p IH]; intros d H.
  - exists d. reflexivity.
  - destruct d as [|ch' d]; simpl in H; [discriminate|].
    destruct (ascii_dec ch ch') as [<-|Hne]; [|discriminate].
    destruct (IH d H) as [k ->]. exists k. reflexivity.
Qed.

Lemma str_in_unfold (needle hay : string) :
  str_in needle hay
  = if String.prefix needle hay then true
    else match hay with
         | EmptyString => false
         | String _ rest => str_in needle rest
         end.
Proof. destruct hay; reflexivity. Qed.

Lemma str_in_middle (needle : string) (a k : string) :
  str_in needle (a ++ needle ++ k) = true.
Proof.
  induction a as [|ch a IH].
  - rewrite str_in_unfold. simpl append. now rewrite prefix_append.
  - rewrite str_in_unfold.
    change (String ch a ++ needle ++ k) with (String ch (a ++ needle ++ k)).
    cbv beta iota. rewrite IH.
    destruct (String.prefix needle _); reflexivity.
Qed.

(** An element plug of a shape's filter array carries the marker the pair
    loop looks for. *)
Lemma element_has_marker (light_shape plug : string) :
  Cmds.is_element_of (light_shape ++ ".aiFilters") plug = true ->
  str_in ".aiFilters[" plug = true.
Proof.
  unfold Cmds.is_element_of. intros H. apply prefix_split in H.
  destruct H as [k ->]. rewrite !append_assoc.
  change (".aiFilters" ++ "[" ++ k) with (".aiFilters[" ++ k).
  apply str_in_middle.
Qed.

(** ** Links *)

Lemma same_link_eq (a b : string * string) :
  Cmds.same_link a b = true <-> a = b.
Proof.
  unfold Cmds.same_link. destruct a as [a1 a2], b as [b1 b2]. simpl.
  rewrite andb_true_iff, !String.eqb_eq. split.
  - intros [-> ->]. reflexivity.
  - intros H. injection H as -> ->. split; reflexivity.
Qed.

Lemma has_link_In (l : string * string) (ls : list (string * string)) :
  Cmds.has_link l ls = true <-> In l ls.
Proof.
  unfold Cmds.has_link. rewrite existsb_exists. split.
  - intros [x [Hx Hs]]. apply same_link_eq in Hs. now subst.
  - intros H. exists l. split; [exact H | now apply same_link_eq].
Qed.

Lemma filter_all {A} (f : A -> bool) (l : list A) :
  (forall x, In x l -> f x = true) -> filter f l = l.
Proof.
  intros H. apply forallb_filter_id. apply forallb_forall. exact H.
Qed.

Lemma filter_twice {A} (f g : A -> bool) (l : list A) :
  filter g (filter f l) = filter (fun x => f x && g x) l.
Proof.
  induction l as [|x l IH]; [reflexivity|]. simpl.
  destruct (f x); simpl; [destruct (g x)|]; now rewrite IH.
Qed.

(** ** Disconnecting: the pair loop *)

Lemma pair_induction {A} (P : list A -> Prop) :
  P [] -> (forall x, P [x]) ->
  (forall x y l, P l -> P (x :: y :: l)) ->
  forall l, P l.
Proof.
  intros H0 H1 H2 l.
  assert (H : P l /\ forall x, P (x :: l)).
  { induction l as [|y l [IHa IHb]]; [split; auto|].
    split; [apply IHb|]. intros x. apply H2. exact IHa. }
  exact (proj1 H).
Qed.

(** One pair: whatever the host answers, nothing is raised, and the links
    that are left are those the pair does not sever. *)
Lemma disconnect_pair_run (blocker dest_plug src_plug : string) (s : Session) :
  exists evs,
    disconnect_pair blocker dest_plug src_plug s
    = (Ok tt,
       mkSession
         (Cmds.set_links
            (filter (fun l => negb (severs blocker (locked (host s))
                                           (dest_plug, src_plug) l))
                    (links (host s)))
            (host s))
         (out s ++ evs)).
Proof.
  unfold disconnect_pair, severs, passes_test. cbn [fst snd].
  destruct ((blocker ++ ".message" =? src_plug)%string
            && str_in ".aiFilters[" dest_plug).
  - unfold disconnect_at, try_except, bind, Cmds.disconnectAttr, command.
    destruct (mem_str dest_plug (locked (host s))).
    + eexists. unfold warning, emit. rewrite filter_all by reflexivity.
      rewrite set_links_same. reflexivity.
    + destruct (Cmds.has_link (src_plug, dest_plug) (links (host s))) eqn:Hl.
      * eexists. cbn [negb]. unfold print, emit. cbn [host out andb].
        reflexivity.
      * eexists. cbn [negb]. unfold warning, emit. cbn [andb].
        rewrite filter_all.
        { rewrite set_links_same. reflexivity. }
        intros x Hx. destruct (Cmds.same_link (src_plug, dest_plug) x) eqn:E;
          [|reflexivity].
        apply same_link_eq in E. subst x. apply has_link_In in Hx. congruence.
  - exists []. unfold ret. rewrite filter_all by reflexivity.
    now rewrite set_links_same, app_nil_r, session_eta.
Qed.

Lemma disconnect_pairs_run (blocker : string) (connections : list string) :
  forall s,
  exists r evs,
    disconnect_pairs blocker connections s
    = (r,
       mkSession
         (Cmds.set_links
            (filter (fun l => negb (severed blocker (locked (host s))
                                            (pairs_of connections) l))
                    (links (host s)))
            (host s))
         (out s ++ evs))
    /\ (Nat.even (List.length connections) = true -> r = Ok tt).
Proof.
  induction connections as [|x|d src rest IH] using pair_induction; intros s.
  - exists (Ok tt), []. split; [|reflexivity]. cbn. unfold ret.
    rewrite filter_all by reflexivity.
    now rewrite set_links_same, app_nil_r, session_eta.
  - exists (Raised "list index out of range"), []. split; [|discriminate].
    cbn. unfold raise. rewrite filter_all by reflexivity.
    now rewrite set_links_same, app_nil_r, session_eta.
  - destruct (disconnect_pair_run blocker d src s) as [evs1 H1].
    cbn [disconnect_pairs]. unfold bind. rewrite H1.
    destruct (IH (mkSession
                    (Cmds.set_links
                       (filter (fun l => negb (severs blocker
                                  (locked (host s)) (d, src) l))
                               (links (host s)))
                       (host s))
                    (out s ++ evs1)))
      as [r [evs2 [H2 Hr]]].
    rewrite H2. exists r, (evs1 ++ evs2)%list. split; [|exact Hr].
    cbn [host out links locked Cmds.set_links pairs_of].
    rewrite filter_twice, <- app_assoc.
    rewrite (filter_ext
               (fun x => negb (severs blocker (locked (host s)) (d, src) x)
                         && negb (severed blocker (locked (host s))
                                          (pairs_of rest) x))
               (fun l => negb (severed blocker (locked (host s))
                                       ((d, src) :: pairs_of rest) l))).
    + reflexivity.
    + intros l. unfold severed. cbn [existsb]. now rewrite negb_orb.
Qed.

Lemma pairs_of_flatten (ps : list (string * string)) :
  pairs_of (flatten_pairs ps) = ps.
Proof.
  induction ps as [|[d src] ps IH]; [reflexivity|].
  cbn. unfold flatten_pairs in IH. now rewrite IH.
Qed.

Lemma flatten_pairs_even (ps : list (string * string)) :
  Nat.even (List.length (flatten_pairs ps)) = true.
Proof.
  induction ps as [|[d src] ps IH]; [reflexivity|]. exact IH.
Qed.

(** C2 as stated fails.  In [stuck] the pair list of the filter array of
    [key] is one pair, whose source is the message plug of [blk] and whose
    destination is element 0 of that array; the host refuses the removal
    because the element is locked, the loop reports the refusal and the
    connection is still there.  And the test of the loop looks for the
    marker in the destination, not for the shape: given a pair of the
    blocker on element 0 of the array of [rim], which is no element of the
    array of [key], the loop removes it. *)
Lemma disconnect_keeps_refused_and_cuts_foreign :
  (Cmds.listConnections_pc "|key|keyShape.aiFilters" (mkSession stuck [])
   = (Ok (Some ["|key|keyShape.aiFilters[0]"; "blk.message"]),
      mkSession stuck [])
   /\ Cmds.is_element_of "|key|keyShape.aiFilters"
                         "|key|keyShape.aiFilters[0]" = true
   /\ disconnect_pairs "blk" ["|key|keyShape.aiFilters[0]"; "blk.message"]
        (mkSession stuck [])
      = (Ok tt,
         mkSession stuck
           [Warning ("Could not disconnect blk.message -> "
                     ++ "|key|keyShape.aiFilters[0]: The attribute "
                     ++ "'|key|keyShape.aiFilters[0]' is locked")])
   /\ In ("blk.message", "|key|keyShape.aiFilters[0]") (links stuck))
  /\ (Cmds.is_element_of "|key|keyShape.aiFilters"
                         "|rim|rimShape.aiFilters[0]" = false
      /\ In ("blk.message", "|rim|rimShape.aiFilters[0]") (links crossed)
      /\ disconnect_pairs "blk" ["|rim|rimShape.aiFilters[0]"; "blk.message"]
           (mkSession crossed [])
         = (Ok tt,
            mkSession stage
              [Printed ("Disconnected blk.message -> "
                        ++ "|rim|rimShape.aiFilters[0]")])).
Proof.
  split.
  - split; [reflexivity|]. split; [reflexivity|]. split; [reflexivity|].
    simpl. tauto.
  - split; [reflexivity|]. split; [simpl; tauto|]. reflexivity.
Qed.

(** C2, amended: on any pair list the pair loop of [disconnect_blocker] is
    one removal attempt, in order, for each pair whose source is the
    blocker's message plug and whose destination contains the marker
    [.aiFilters[] (the test of line 129, which does not look at the shape),
    and it returns normally.  The links it takes away are exactly those
    named by such a pair whose removal the host does not refuse, that is
    whose destination is not locked: every one of them is gone, however
    many there are, and every other link, a refused one included, is still
    there; nothing but the links changes in the host.  On the pair list of
    a light's filter array, where every destination is an element of that
    array, these are the pairs whose source is the blocker's message plug
    and whose destination is an unlocked element of the array. *)
Theorem disconnect_removes_matching_unrefused
  (blocker : string) (ps : list (string * string)) (s : Session) :
  disconnect_pairs blocker (flatten_pairs ps) s
  = for_each (filter (fun p => (blocker ++ ".message" =? snd p)%string
                               && str_in ".aiFilters[" (fst p)) ps)
             (fun p => disconnect_at (snd p) (fst p)) s
  /\ exists s',
    disconnect_pairs blocker (flatten_pairs ps) s = (Ok tt, s')
    /\ host s' = Cmds.set_links (links (host s')) (host s)
    /\ (forall src dst,
          In (src, dst) (links (host s')) <->
          In (src, dst) (links (host s))
          /\ ~ (In (dst, src) ps /\ src = blocker ++ ".message"
                /\ str_in ".aiFilters[" dst = true
                /\ ~ In dst (locked (host s))))
    /\ (forall light_shape,
          (forall p, In p ps ->
             Cmds.is_element_of (light_shape ++ ".aiFilters") (fst p) = true) ->
          forall src dst,
            In (src, dst) (links (host s')) <->
            In (src, dst) (links (host s))
            /\ ~ (In (dst, src) ps /\ src = blocker ++ ".message"
                  /\ Cmds.is_element_of (light_shape ++ ".aiFilters") dst
                     = true
                  /\ ~ In dst (locked (host s)))).
Proof.
  split.
  { revert s. induction ps as [|[d src] ps IH]; intros s; [reflexivity|].
    cbn [flatten_pairs flat_map fst snd app disconnect_pairs filter].
    unfold bind at 1. unfold disconnect_pair.
    destruct ((blocker ++ ".message" =? src)%string
              && str_in ".aiFilters[" d).
    - cbn [for_each fst snd]. unfold bind.
      destruct (disconnect_at src d s) as [[[]|e] s1];
        [apply IH | reflexivity].
    - unfold ret. apply IH. }
  destruct (disconnect_pairs_run blocker (flatten_pairs ps) s)
    as [r [evs [Hrun Hr]]].
  rewrite (Hr (flatten_pairs_even ps)) in Hrun. rewrite pairs_of_flatten in Hrun.
  assert (Hsev : forall src dst,
             severed blocker (locked (host s)) ps (src, dst) = true <->
             In (dst, src) ps /\ src = blocker ++ ".message"
             /\ str_in ".aiFilters[" dst = true
             /\ ~ In dst (locked (host s))).
  { intros src dst. unfold severed. rewrite existsb_exists. split.
    - intros [[d0 s0] [Hp H]]. unfold severs, passes_test in H.
      cbn [fst snd] in H.
      apply andb_true_iff in H. destruct H as [H H3].
      apply andb_true_iff in H. destruct H as [H H2].
      apply andb_true_iff in H. destruct H as [H0 H1].
      apply same_link_eq in H3. injection H3 as <- <-.
      apply String.eqb_eq in H0. apply negb_true_iff in H2.
      apply mem_str_false in H2. auto.
    - intros [Hp [Hsrc [Hm Hl]]]. exists (dst, src). split; [exact Hp|].
      unfold severs, passes_test. cbn [fst snd].
      apply mem_str_false in Hl. rewrite Hm, Hl. subst src.
      rewrite String.eqb_refl. cbn [andb negb]. now apply same_link_eq. }
  assert (Hgen : forall src dst,
             In (src, dst)
                (filter (fun l => negb (severed blocker (locked (host s)) ps l))
                        (links (host s))) <->
             In (src, dst) (links (host s))
             /\ ~ (In (dst, src) ps /\ src = blocker ++ ".message"
                   /\ str_in ".aiFilters[" dst = true
                   /\ ~ In dst (locked (host s)))).
  { intros src dst. rewrite filter_In, negb_true_iff, <- Hsev.
    destruct (severed blocker (locked (host s)) ps (src, dst));
      intuition congruence. }
  eexists. split; [exact Hrun|]. cbn [host links Cmds.set_links].
  split; [reflexivity|]. split; [exact Hgen|].
  intros light_shape Helem src dst. rewrite Hgen.
  split; intros [Hin H]; (split; [exact Hin|]);
    intros [Hp [Hsrc [Hd Hl]]]; apply H; (split; [exact Hp|]);
    (split; [exact Hsrc|]); (split; [|exact Hl]).
  - exact (element_has_marker light_shape dst Hd).
  - exact (Helem (dst, src) Hp).
Qed.

Lemma disconnect_removes_matching_unrefused_witness :
  exists s',
    disconnect_pairs "blk"
      ["|key|keyShape.aiFilters[0]"; "blk.message";
       "|key|keyShape.aiFilters[1]"; "old.message";
       "|key|keyShape.aiFilters[3]"; "blk.message"]
      (mkSession jammed [])
    = (Ok tt, s')
    /\ In ("blk.message", "|key|keyShape.aiFilters[0]") (links (host s'))
    /\ In ("old.message", "|key|keyShape.aiFilters[1]") (links (host s'))
    /\ ~ In ("blk.message", "|key|keyShape.aiFilters[3]") (links (host s')).
Proof.
  destruct (disconnect_removes_matching_unrefused "blk"
              [("|key|keyShape.aiFilters[0]", "blk.message");
               ("|key|keyShape.aiFilters[1]", "old.message");
               ("|key|keyShape.aiFilters[3]", "blk.message")]
              (mkSession jammed []))
    as [_ [s' [Hrun [_ [_ Hshape]]]]].
  assert (Helem : forall p,
             In p [("|key|keyShape.aiFilters[0]", "blk.message");
                   ("|key|keyShape.aiFilters[1]", "old.message");
                   ("|key|keyShape.aiFilters[3]", "blk.message")] ->
             Cmds.is_element_of ("|key|keyShape" ++ ".aiFilters") (fst p)
             = true)
    by (intros p [<-|[<-|[<-|[]]]]; reflexivity).
  exists s'. split; [exact Hrun|]. split; [|split].
  - apply (Hshape "|key|keyShape" Helem). split; [simpl; tauto|].
    intros [_ [_ [_ Hl]]]. apply Hl. simpl. tauto.
  - apply (Hshape "|key|keyShape" Helem). split; [simpl; tauto|].
    intros [_ [Hsrc _]]. discriminate.
  - intros Hin. apply (Hshape "|key|keyShape" Helem) in Hin.
    destruct Hin as [_ Hno]. apply Hno.
    split; [simpl; tauto|]. split; [reflexivity|]. split; [reflexivity|].
    simpl. intros [H|[]]. discriminate.
Defined.

(** ** Disconnecting: one light, and the loop over the lights *)

Lemma listed_pairs (attr : string) (ls : list (string * string)) :
  pairs_of (Cmds.connections_of attr ls)
  = map (fun l => (snd l, fst l))
        (filter (fun l => Cmds.is_element_of attr (snd l)) ls).
Proof.
  unfold Cmds.connections_of. induction ls as [|l rest IH]; [reflexivity|].
  cbn [flat_map filter]. destruct (Cmds.is_element_of attr (snd l)).
  - cbn. now rewrite IH.
  - exact IH.
Qed.

Lemma listed_even (attr : string) (ls : list (string * string)) :
  Nat.even (List.length (Cmds.connections_of attr ls)) = true.
Proof.
  unfold Cmds.connections_of. induction ls as [|l rest IH]; [reflexivity|].
  cbn [flat_map]. destruct (Cmds.is_element_of attr (snd l)); exact IH.
Qed.

(** On the pair list the host gives for a shape's filter array, the pair
    loop severs exactly the removable links. *)
Lemma severed_listed (blocker light_shape : string) (lck : list string)
  (ls : list (string * string)) (l : string * string) :
  In l ls ->
  severed blocker lck
    (map (fun l => (snd l, fst l))
         (filter (fun l => Cmds.is_element_of (light_shape ++ ".aiFilters")
                                              (snd l)) ls)) l
  = removable blocker (light_shape ++ ".aiFilters") lck l.
Proof.
  intros Hin. apply eq_iff_eq_true. unfold severed, removable.
  rewrite existsb_exists. split.
  - intros [p [Hp H]]. apply in_map_iff in Hp.
    destruct Hp as [[s0 d0] [<- Hf]]. apply filter_In in Hf.
    destruct Hf as [_ Hel]. cbn [fst snd] in *.
    unfold severs, passes_test in H. cbn [fst snd] in H.
    apply andb_true_iff in H. destruct H as [H H3].
    apply andb_true_iff in H. destruct H as [H H2].
    apply andb_true_iff in H. destruct H as [H0 _].
    apply same_link_eq in H3. subst l. cbn [fst snd].
    now rewrite H0, Hel, H2.
  - intros H. apply andb_true_iff in H. destruct H as [H H2].
    apply andb_true_iff in H. destruct H as [H0 H1].
    exists (snd l, fst l). split.
    + apply in_map_iff. exists l. split; [reflexivity|].
      apply filter_In. split; assumption.
    + unfold severs, passes_test. cbn [fst snd].
      rewrite H0, H2, (element_has_marker light_shape (snd l) H1).
      cbn [andb]. apply same_link_eq. now destruct l.
Qed.

Lemma resolves_set_links (ls : list (string * string)) (w : World) (t : string) :
  resolves (Cmds.set_links ls w) t = resolves w t.
Proof. reflexivity. Qed.

Lemma reached_set_links (ls : list (string * string)) (w : World)
  (lights : list string) :
  reached (Cmds.set_links ls w) lights = reached w lights.
Proof.
  induction lights as [|t rest IH]; [reflexivity|].
  cbn [reached]. now rewrite resolves_set_links, IH.
Qed.

Lemma disconnect_light_run (blocker t : string) (s : Session) :
  exists r evs,
    disconnect_light blocker t s
    = (r,
       mkSession
         (Cmds.set_links (filter (keep blocker (host s) t) (links (host s)))
                         (host s))
         (out s ++ evs))
    /\ (resolves (host s) t = true -> r = Ok tt)
    /\ (resolves (host s) t = false -> exists e, r = Raised e).
Proof.
  unfold disconnect_light, bind at 1. unfold Cmds.listRelatives_s, query at 1.
  unfold keep, resolves.
  destruct (mem_str t (nodes (host s))) eqn:Hn; cbn [andb].
  - cbv zeta. rewrite or_empty_none_if_empty.
    destruct (Cmds.lookup_children t (children (host s))) as [|sh more].
    + exists (Ok tt). eexists. split; [|split; [reflexivity|discriminate]].
      unfold warning, emit. rewrite filter_all by reflexivity.
      rewrite set_links_same. reflexivity.
    + unfold bind, Cmds.listConnections_pc, query.
      destruct (mem_str (sh ++ ".aiFilters") (arrays (host s))) eqn:Ha.
      * rewrite or_empty_none_if_empty.
        destruct (disconnect_pairs_run blocker
                    (Cmds.connections_of (sh ++ ".aiFilters")
                                         (links (host s))) s)
          as [r [evs [Hrun Hr]]].
        rewrite (Hr (listed_even _ _)) in Hrun. rewrite Hrun.
        exists (Ok tt), evs. split; [|split; [reflexivity|discriminate]].
        rewrite listed_pairs.
        rewrite (filter_ext_in
                   (fun l => negb (severed blocker (locked (host s))
                      (map (fun l0 => (snd l0, fst l0))
                         (filter (fun l0 => Cmds.is_element_of
                                    (sh ++ ".aiFilters") (snd l0))
                                 (links (host s)))) l))
                   (fun l => negb (removable blocker (sh ++ ".aiFilters")
                                             (locked (host s)) l))).
        { reflexivity. }
        intros l Hl. now rewrite severed_listed.
      * eexists. exists []. split; [|split; [discriminate|eexists; reflexivity]].
        rewrite filter_all by reflexivity.
        now rewrite set_links_same, app_nil_r, session_eta.
  - eexists. exists []. split; [|split; [discriminate|eexists; reflexivity]].
    rewrite filter_all by reflexivity.
    now rewrite set_links_same, app_nil_r, session_eta.
Qed.

Lemma disconnect_lights_run (blocker : string) (lights : list string) :
  forall s,
  exists r evs,
    for_each lights (disconnect_light blocker) s
    = (r,
       mkSession
         (Cmds.set_links
            (filter (fun l => forallb (fun t => keep blocker (host s) t l)
                                      (reached (host s) lights))
                    (links (host s)))
            (host s))
         (out s ++ evs))
    /\ (forallb (resolves (host s)) lights = true -> r = Ok tt).
Proof.
  induction lights as [|t rest IH]; intros s.
  - exists (Ok tt), []. split; [|reflexivity]. cbn. unfold ret.
    rewrite filter_all by reflexivity.
    now rewrite set_links_same, app_nil_r, session_eta.
  - destruct (disconnect_light_run blocker t s) as [r1 [evs1 [H1 [Hok Hbad]]]].
    cbn [for_each reached forallb]. unfold bind. rewrite H1.
    destruct (resolves (host s) t) eqn:Hres.
    + rewrite (Hok eq_refl).
      destruct (IH (mkSession
                      (Cmds.set_links
                         (filter (keep blocker (host s) t) (links (host s)))
                         (host s))
                      (out s ++ evs1)))
        as [r [evs2 [H2 Hr]]].
      rewrite H2. exists r, (evs1 ++ evs2)%list.
      cbn [host out links Cmds.set_links] in *.
      split; [|exact Hr].
      rewrite filter_twice, <- app_assoc.
      change (mkWorld (selection (host s)) (lightBlockerField (host s))
                (lightListTSL (host s)) (nodes (host s)) (children (host s))
                (arrays (host s))
                (filter (keep blocker (host s) t) (links (host s)))
                (locked (host s)))
        with (Cmds.set_links
                (filter (keep blocker (host s) t) (links (host s))) (host s)).
      rewrite reached_set_links. reflexivity.
    + destruct (Hbad eq_refl) as [e ->].
      exists (Raised e), evs1. split; [|discriminate].
      unfold keep. rewrite Hres. reflexivity.
Qed.

(** ** Disconnecting: the handler *)

Lemma blocker_check (w : World) :
  (lightBlockerField w =? "")%string
  || negb (mem_str (lightBlockerField w) (nodes w))
  = negb (blocker_valid w).
Proof.
  unfold blocker_valid. rewrite negb_andb, negb_involutive. reflexivity.
Qed.

Lemma stays_set_links (ls : list (string * string)) (w : World)
  (l : string * string) :
  stays (Cmds.set_links ls w) l = stays w l.
Proof.
  unfold stays.
  change (blocker_valid (Cmds.set_links ls w)) with (blocker_valid w).
  change (light_names (Cmds.set_links ls w)) with (light_names w).
  change (lightBlockerField (Cmds.set_links ls w))
    with (lightBlockerField w).
  rewrite reached_set_links. reflexivity.
Qed.

(** The host after [disconnect_blocker] is the host before it with the
    links filtered by [stays]; the handler returns normally when the
    blocker is valid and every listed light resolves. *)
Lemma disconnect_blocker_effect (s : Session) :
  exists r evs,
    disconnect_blocker s
    = (r,
       mkSession
         (Cmds.set_links (filter (stays (host s)) (links (host s))) (host s))
         (out s ++ evs))
    /\ (forallb (resolves (host s)) (light_names (host s)) = true ->
        r = Ok tt).
Proof.
  rewrite disconnect_blocker_run. cbv zeta. rewrite blocker_check.
  unfold stays. destruct (blocker_valid (host s)); cbn [negb].
  - unfold light_names.
    destruct (lightListTSL (host s)) as [|it items] eqn:Hitems.
    + exists (Ok tt). eexists. split; [|reflexivity].
      rewrite filter_all by reflexivity. now rewrite set_links_same.
    + destruct (disconnect_lights_run (lightBlockerField (host s))
                  (map fst (it :: items)) s) as [r [evs [H Hr]]].
      exists r, evs. split; [exact H|exact Hr].
  - exists (Ok tt). eexists. split; [|reflexivity].
    rewrite filter_all by reflexivity. now rewrite set_links_same.
Qed.



Lemma reached_all (w : World) (lights : list string) :
  forallb (resolves w) lights = true -> reached w lights = lights.
Proof.
  induction lights as [|t rest IH]; [reflexivity|]. cbn [forallb reached].
  intros H. apply andb_true_iff in H. destruct H as [Ht Hrest].
  rewrite Ht. now rewrite IH.
Qed.

Lemma connect_blocker_effect (s : Session) :
  blocker_valid (host s) = true ->
  forallb (resolves (host s)) (light_names (host s)) = true ->
  exists ls evs,
    connect_blocker s
    = (Ok tt, mkSession (Cmds.set_links ls (host s)) (out s ++ evs)).
Proof.
  intros Hv Hres. rewrite connect_blocker_run. cbv zeta.
  rewrite blocker_check, Hv. cbn [negb]. unfold light_names in Hres.
  destruct (lightListTSL (host s)) as [|it items].
  - exists (links (host s)). eexists. now rewrite set_links_same.
  - destruct (connect_lights_resolved (lightBlockerField (host s))
                (map fst (it :: items)) s Hres) as [ls [evs [H _]]].
    exists ls, evs. exact H.
Qed.

(** C4, amended: with a valid blocker, every listed light resolving in the
    host, and no element of the lights' filter arrays locked,
    [connect_blocker] followed by [disconnect_blocker] both return
    normally and leave, on the filter array of the first shape of every
    listed light, no link whose source is the blocker's message plug. *)
Theorem connect_then_disconnect_clears (s : Session) :
  let w := host s in
  let blocker := lightBlockerField w in
  blocker_valid w = true ->
  forallb (resolves w) (light_names w) = true ->
  (forall t light_shape more dst,
      In t (light_names w) ->
      Cmds.lookup_children t (children w) = light_shape :: more ->
      Cmds.is_element_of (light_shape ++ ".aiFilters") dst = true ->
      ~ In dst (locked w)) ->
  exists s1 s2,
    connect_blocker s = (Ok tt, s1)
    /\ disconnect_blocker s1 = (Ok tt, s2)
    /\ forall t light_shape more src dst,
         In t (light_names w) ->
         Cmds.lookup_children t (children w) = light_shape :: more ->
         In (src, dst) (links (host s2)) ->
         Cmds.is_element_of (light_shape ++ ".aiFilters") dst = true ->
         src <> blocker ++ ".message".
Proof.
  intros w blocker Hv Hres Hfree.
  destruct (connect_blocker_effect s Hv Hres) as [ls [evs1 H1]].
  destruct (disconnect_blocker_effect
              (mkSession (Cmds.set_links ls (host s)) (out s ++ evs1)))
    as [r [evs2 [H2 Hr]]].
  cbn [host] in Hr.
  assert (Hres' : forallb (resolves (Cmds.set_links ls (host s)))
                    (light_names (Cmds.set_links ls (host s))) = true)
    by exact Hres.
  rewrite (Hr Hres') in H2.
  eexists. eexists. split; [exact H1|]. split; [exact H2|].
  intros t sh more src dst Ht Hsh Hin Hel Hsrc.
  cbn [host links Cmds.set_links] in Hin. apply filter_In in Hin.
  destruct Hin as [_ Hstay]. rewrite stays_set_links in Hstay.
  unfold stays in Hstay. fold w in Hstay. rewrite Hv in Hstay.
  rewrite (reached_all w _ Hres) in Hstay.
  rewrite forallb_forall in Hstay. specialize (Hstay t Ht).
  unfold keep in Hstay. rewrite forallb_forall in Hres.
  rewrite (Hres t Ht), Hsh in Hstay.
  apply negb_true_iff in Hstay. unfold removable in Hstay.
  cbn [fst snd] in Hstay. fold blocker in Hstay.
  rewrite Hel, Hsrc, String.eqb_refl in Hstay. cbn [andb] in Hstay.
  apply negb_false_iff, mem_str_In in Hstay.
  exact (Hfree t sh more dst Ht Hsh Hel Hstay).
Qed.

Lemma connect_then_disconnect_clears_witness :
  exists s1 s2,
    connect_blocker (mkSession wired []) = (Ok tt, s1)
    /\ disconnect_blocker s1 = (Ok tt, s2)
    /\ forall src dst,
         In (src, dst) (links (host s2)) ->
         Cmds.is_element_of "|key|keyShape.aiFilters" dst = true ->
         src <> "blk.message".
Proof.
  destruct (connect_then_disconnect_clears (mkSession wired []))
    as [s1 [s2 [H1 [H2 H3]]]].
  - reflexivity.
  - reflexivity.
  - intros t sh more dst _ _ _ [].
  - exists s1, s2. split; [exact H1|]. split; [exact H2|].
    intros src dst Hin Hel.
    apply (H3 "key" "|key|keyShape" [] src dst); auto.
    simpl. auto.
Defined.

(** C4 as stated fails: a valid blocker, a listed light [key] with its
    shape, and still a link from the blocker's message plug on the filter
    array of [key] after [connect_blocker] and [disconnect_blocker], once
    because the host refuses the removal on a locked element, once because
    the query for a listed name that matches no object raises and ends both
    loops before they reach [key]. *)
Lemma connect_then_disconnect_leaves_link :
  (blocker_valid stuck = true
   /\ In "key" (light_names stuck)
   /\ Cmds.lookup_children "key" (children stuck) = ["|key|keyShape"]
   /\ In ("blk.message", "|key|keyShape.aiFilters[0]")
         (links (host (snd (disconnect_blocker
                              (snd (connect_blocker (mkSession stuck []))))))))
  /\ (blocker_valid haunted = true
      /\ In "key" (light_names haunted)
      /\ Cmds.lookup_children "key" (children haunted) = ["|key|keyShape"]
      /\ In ("blk.message", "|key|keyShape.aiFilters[0]")
            (links (host (snd (disconnect_blocker
                       (snd (connect_blocker (mkSession haunted [])))))))).
Proof.
  split; (split; [reflexivity|]); (split; [simpl; tauto|]);
    (split; [reflexivity|]); vm_compute; tauto.
Qed.

(** ** Disconnecting when nothing matches *)

Lemma disconnect_pairs_idle (blocker : string) (connections : list string) :
  (forall p, In p (pairs_of connections) ->
             (blocker ++ ".message" =? snd p)%string = false) ->
  Nat.even (List.length connections) = true ->
  forall s, disconnect_pairs blocker connections s = (Ok tt, s).
Proof.
  induction connections as [|x|d src rest IH] using pair_induction;
    intros Hno Heven s.
  - reflexivity.
  - discriminate.
  - cbn [disconnect_pairs]. unfold bind, disconnect_pair.
    assert (H := Hno (d, src) (or_introl eq_refl)). cbn [snd] in H.
    rewrite H. cbn [andb]. unfold ret.
    apply IH; [|exact Heven]. intros p Hp. apply Hno. now right.
Qed.

Lemma disconnect_light_idle (blocker t : string) (s : Session) :
  resolves (host s) t = true ->
  (forall light_shape more src dst,
      Cmds.lookup_children t (children (host s)) = light_shape :: more ->
      In (src, dst) (links (host s)) ->
      Cmds.is_element_of (light_shape ++ ".aiFilters") dst = true ->
      src <> blocker ++ ".message") ->
  disconnect_light blocker t s
  = (Ok tt, mkSession (host s) (out s ++ skip_warnings (host s) [t])).
Proof.
  unfold resolves. intros Hres Hno. apply andb_true_iff in Hres.
  destruct Hres as [Hn Ha].
  unfold disconnect_light, bind at 1. unfold Cmds.listRelatives_s, query at 1.
  rewrite Hn. cbv zeta. rewrite or_empty_none_if_empty.
  unfold skip_warnings, shapeless. cbn [filter].
  destruct (Cmds.lookup_children t (children (host s))) as [|sh more].
  - reflexivity.
  - unfold bind, Cmds.listConnections_pc, query. rewrite Ha.
    rewrite or_empty_none_if_empty. cbn [map]. rewrite app_nil_r, session_eta.
    apply disconnect_pairs_idle; [|apply listed_even].
    intros p Hp. rewrite listed_pairs in Hp. apply in_map_iff in Hp.
    destruct Hp as [[src dst] [<- Hf]]. apply filter_In in Hf.
    destruct Hf as [Hin Hel]. cbn [fst snd] in *.
    apply String.eqb_neq. intros Heq.
    exact (Hno sh more src dst eq_refl Hin Hel (eq_sym Heq)).
Qed.

Lemma disconnect_lights_idle (blocker : string) (w : World)
  (lights : list string) :
  forallb (resolves w) lights = true ->
  (forall t light_shape more src dst,
      In t lights ->
      Cmds.lookup_children t (children w) = light_shape :: more ->
      In (src, dst) (links w) ->
      Cmds.is_element_of (light_shape ++ ".aiFilters") dst = true ->
      src <> blocker ++ ".message") ->
  forall log,
    for_each lights (disconnect_light blocker) (mkSession w log)
    = (Ok tt, mkSession w (log ++ skip_warnings w lights)).
Proof.
  induction lights as [|t rest IH]; intros Hres Hno log.
  - cbn. unfold ret, skip_warnings. cbn. now rewrite app_nil_r.
  - cbn [forallb] in Hres. apply andb_true_iff in Hres.
    destruct Hres as [Ht Hrest].
    cbn [for_each]. unfold bind.
    rewrite (disconnect_light_idle blocker t (mkSession w log) Ht).
    + cbn [host out]. rewrite IH.
      * unfold skip_warnings. cbn [filter].
        destruct (shapeless w t); cbn [map app];
          now rewrite <- app_assoc.
      * exact Hrest.
      * intros t' sh more src dst Hin. apply Hno. now right.
    + intros sh more src dst. apply Hno. now left.
Qed.

(** C6, amended: with a valid blocker, a non-empty light list whose names
    all resolve, and no link from the blocker's message plug on the filter
    array of any listed light, [disconnect_blocker] returns normally, the
    host is unchanged, and all it writes is the skip warning for each
    listed light that has no shape; with no such light it writes
    nothing. *)
Theorem disconnect_without_match_only_skips (s : Session) :
  let w := host s in
  let blocker := lightBlockerField w in
  blocker_valid w = true ->
  lightListTSL w <> [] ->
  forallb (resolves w) (light_names w) = true ->
  (forall t light_shape more src dst,
      In t (light_names w) ->
      Cmds.lookup_children t (children w) = light_shape :: more ->
      In (src, dst) (links w) ->
      Cmds.is_element_of (light_shape ++ ".aiFilters") dst = true ->
      src <> blocker ++ ".message") ->
  disconnect_blocker s
  = (Ok tt, mkSession w (out s ++ skip_warnings w (light_names w)))
  /\ (forallb (fun t => negb (shapeless w t)) (light_names w) = true ->
      disconnect_blocker s = (Ok tt, s)).
Proof.
  intros w blocker Hv Hne Hres Hno.
  assert (Hrun : disconnect_blocker s
                 = (Ok tt,
                    mkSession w (out s ++ skip_warnings w (light_names w)))).
  { rewrite disconnect_blocker_run. cbv zeta. rewrite blocker_check.
    fold w. rewrite Hv. cbn [negb].
    destruct (lightListTSL w) as [|it items] eqn:Hitems; [congruence|].
    rewrite <- (session_eta s) at 1. fold w.
    replace (map fst (it :: items)) with (light_names w)
      by (unfold light_names; now rewrite Hitems).
    now apply disconnect_lights_idle. }
  split; [exact Hrun|]. intros Hall. rewrite Hrun.
  unfold skip_warnings.
  assert (Hnone : filter (shapeless w) (light_names w) = []).
  { clear -Hall. induction (light_names w) as [|t rest IH]; [reflexivity|].
    cbn [forallb] in Hall. apply andb_true_iff in Hall.
    destruct Hall as [Ht Hrest]. cbn [filter].
    apply negb_true_iff in Ht. rewrite Ht. now apply IH. }
  rewrite Hnone. cbn [map]. rewrite app_nil_r. unfold w.
  now rewrite session_eta.
Qed.

Lemma disconnect_without_match_only_skips_witness :
  disconnect_blocker (mkSession quiet [])
  = (Ok tt, mkSession quiet [Warning (no_shape_warning "bare")]).
Proof.
  refine (proj1 (disconnect_without_match_only_skips
                   (mkSession quiet []) _ _ _ _)).
  - reflexivity.
  - discriminate.
  - reflexivity.
  - intros t sh more src dst _ _ [H|[]] _. injection H as <- _.
    discriminate.
Defined.

(** C6 as stated fails: the blocker is valid, the list is not empty, no
    link at all is in the scene, and [disconnect_blocker] still writes a
    warning, for the listed light that has no shape. *)
Lemma disconnect_without_match_warns :
  blocker_valid stage = true
  /\ lightListTSL stage <> []
  /\ links stage = []
  /\ disconnect_blocker (mkSession stage [])
     = (Ok tt,
        mkSession stage [Warning "No shape found under 'bare'. Skipping..."]).
Proof.
  split; [reflexivity|]. split; [discriminate|].
  split; reflexivity.
Qed.

(** ** Running a handler twice *)

Lemma pick_light_blocker_run (s : Session) :
  pick_light_blocker s
  = match selection (host s) with
    | [] => (Ok tt,
             mkSession (host s)
               (out s ++ [Warning "No objects selected to set as Light Blocker."]))
    | blocker :: _ =>
        (Ok tt, mkSession (Cmds.set_field blocker (host s)) (out s))
    end.
Proof.
  unfold pick_light_blocker, Cmds.ls_sl, Cmds.textField_e. run_monad.
  destruct (selection (host s)); reflexivity.
Qed.




Lemma remove_item_filter (x : string) (items : list (string * bool)) :
  NoDup (map fst items) ->
  Cmds.remove_item x items
  = filter (fun p => negb (fst p =? x)%string) items.
Proof.
  induction items as [|[n f] rest IH]; intros Hnd; [reflexivity|].
  cbn [map fst] in Hnd. apply NoDup_cons_iff in Hnd.
  destruct Hnd as [Hn Hrest]. cbn [Cmds.remove_item filter fst].
  destruct (String.eqb_spec n x) as [->|Hne]; cbn [negb].
  - symmetry. apply filter_all. intros [n' f'] Hin. cbn [fst].
    apply negb_true_iff, String.eqb_neq. intros ->.
    apply Hn. apply in_map_iff. exists (x, f'). split; [reflexivity|exact Hin].
  - now rewrite IH.
Qed.

Lemma NoDup_map_filter {A B} (f : A -> B) (g : A -> bool) (l : list A) :
  NoDup (map f l) -> NoDup (map f (filter g l)).
Proof.
  induction l as [|a l IH]; intros Hnd; [exact Hnd|].
  cbn [map] in Hnd. apply NoDup_cons_iff in Hnd. destruct Hnd as [Ha Hl].
  cbn [filter]. destruct (g a); [|now apply IH].
  cbn [map]. apply NoDup_cons; [|now apply IH].
  intros Hin. apply Ha. apply in_map_iff in Hin.
  destruct Hin as [b [Hb Hin]]. apply filter_In in Hin.
  apply in_map_iff. exists b. tauto.
Qed.

Lemma remove_loop_run (sel : list string) : forall s,
  NoDup (light_names (host s)) ->
  NoDup sel ->
  (forall x, In x sel -> In x (light_names (host s))) ->
  for_each sel Cmds.textScrollList_ri s
  = (Ok tt,
     mkSession
       (Cmds.set_items
          (filter (fun p => negb (mem_str (fst p) sel))
                  (lightListTSL (host s)))
          (host s))
       (out s)).
Proof.
  induction sel as [|x rest IH]; intros s Hnd Hsel Hin.
  - cbn. unfold ret. rewrite filter_all by reflexivity.
    now rewrite set_items_same, session_eta.
  - cbn [for_each]. unfold bind, Cmds.textScrollList_ri, command.
    assert (Hx : mem_str x (map fst (lightListTSL (host s))) = true).
    { apply mem_str_In. apply Hin. now left. }
    rewrite Hx. apply NoDup_cons_iff in Hsel. destruct Hsel as [Hxr Hrest].
    unfold light_names in Hnd.
    rewrite (remove_item_filter x _ Hnd). rewrite IH.
    + cbn [host out lightListTSL Cmds.set_items]. rewrite filter_twice.
      rewrite (filter_ext
                 (fun p => negb (fst p =? x)%string
                           && negb (mem_str (fst p) rest))
                 (fun p => negb (mem_str (fst p) (x :: rest)))).
      * reflexivity.
      * intros p. cbn [mem_str existsb]. now rewrite negb_orb.
    + unfold light_names. cbn [host lightListTSL Cmds.set_items].
      now apply NoDup_map_filter.
    + exact Hrest.
    + intros y Hy. unfold light_names.
      cbn [host lightListTSL Cmds.set_items].
      assert (Hyin : In y (light_names (host s))) by (apply Hin; now right).
      unfold light_names in Hyin. apply in_map_iff in Hyin.
      destruct Hyin as [p [Hp Hpin]]. apply in_map_iff. exists p.
      split; [exact Hp|]. apply filter_In. split; [exact Hpin|].
      apply negb_true_iff, String.eqb_neq. intros Heq. apply Hxr.
      now rewrite <- Heq, Hp.
Qed.

Lemma remove_selected_lights_run (s : Session) :
  remove_selected_lights s
  = match map fst (filter snd (lightListTSL (host s))) with
    | [] => (Ok tt,
             mkSession (host s)
               (out s ++ [Warning "No lights selected in the list to remove."]))
    | sel => for_each sel Cmds.textScrollList_ri s
    end.
Proof.
  unfold remove_selected_lights, bind. unfold Cmds.textScrollList_si, query.
  rewrite truthy_none_if_empty, or_empty_none_if_empty.
  destruct (map fst (filter snd (lightListTSL (host s)))); reflexivity.
Qed.

(** On a list without duplicate names the handler returns normally and
    leaves the items that were not selected. *)
Lemma remove_selected_lights_effect (s : Session) :
  NoDup (light_names (host s)) ->
  exists evs,
    remove_selected_lights s
    = (Ok tt,
       mkSession
         (Cmds.set_items (filter (fun p => negb (snd p))
                                 (lightListTSL (host s)))
                         (host s))
         (out s ++ evs)).
Proof.
  intros Hnd. rewrite remove_selected_lights_run.
  destruct (map fst (filter snd (lightListTSL (host s)))) as [|x sel] eqn:Hsel.
  - eexists. rewrite filter_all; [now rewrite set_items_same|].
    intros [n f] Hp. cbn [snd]. destruct f; [|reflexivity].
    assert (Hin : In n (map fst (filter snd (lightListTSL (host s))))).
    { apply in_map_iff. exists (n, true). split; [reflexivity|].
      apply filter_In. split; [exact Hp|reflexivity]. }
    rewrite Hsel in Hin. destruct Hin.
  - exists []. rewrite remove_loop_run, app_nil_r.
    + rewrite <- Hsel.
      rewrite (filter_ext_in
                 (fun p => negb (mem_str (fst p)
                                   (map fst (filter snd
                                               (lightListTSL (host s))))))
                 (fun p => negb (snd p))); [reflexivity|].
      intros [n f] Hp. cbn [fst snd]. f_equal. apply eq_iff_eq_true.
      rewrite mem_str_In, in_map_iff. split.
      * intros [[n' f'] [Hn Hq]]. cbn [fst] in Hn. subst n'.
        apply filter_In in Hq. destruct Hq as [Hq Hf]. cbn [snd] in Hf.
        subst f'. destruct f; [reflexivity|]. exfalso.
        unfold light_names in Hnd. clear -Hnd Hp Hq.
        induction (lightListTSL (host s)) as [|a l IH]; [destruct Hp|].
        cbn [map] in Hnd. apply NoDup_cons_iff in Hnd.
        destruct Hnd as [Ha Hl].
        destruct Hp as [->|Hp], Hq as [Hq|Hq].
        -- discriminate.
        -- apply Ha. apply in_map_iff. exists (n, true). auto.
        -- subst a. apply Ha. apply in_map_iff. exists (n, false). auto.
        -- now apply IH.
      * intros ->. exists (n, true). split; [reflexivity|].
        apply filter_In. split; [exact Hp|reflexivity].
    + exact Hnd.
    + rewrite <- Hsel. now apply NoDup_map_filter.
    + intros y Hy. rewrite <- Hsel in Hy. apply in_map_iff in Hy.
      destruct Hy as [p [Hp Hpin]]. apply filter_In in Hpin.
      unfold light_names. apply in_map_iff. exists p. tauto.
Qed.


(** The light list starts empty and the two handlers that edit it keep it
    free of duplicate names. *)
Lemma light_list_duplicate_free (w : World) (s : Session) :
  light_names (build_ui w) = []
  /\ (NoDup (light_names (host s)) ->
      NoDup (light_names (host (snd (add_selected_lights s))))
      /\ NoDup (light_names (host (snd (remove_selected_lights s))))).
Proof.
  split; [reflexivity|]. intros Hnd. split.
  - rewrite add_selected_lights_run.
    destruct (selection (host s)) as [|o sel]; [exact Hnd|].
    cbn [snd host]. unfold light_names. cbn [lightListTSL Cmds.set_items].
    apply (NoDup_count_occ string_dec). intros x. rewrite add_names_count.
    unfold light_names in Hnd.
    rewrite (NoDup_count_occ string_dec) in Hnd. specialize (Hnd x).
    destruct (Nat.eqb (count_occ string_dec
                         (map fst (lightListTSL (host s))) x) 0);
      [destruct (mem_str x (o :: sel)); lia | exact Hnd].
  - destruct (remove_selected_lights_effect s Hnd) as [evs H].
    rewrite H. cbn [snd host]. unfold light_names.
    cbn [lightListTSL Cmds.set_items]. now apply NoDup_map_filter.
Qed.




(** * Further properties of the handlers *)

(** ** The index search: range and dependence on the set only *)

Lemma first_not_in_ext (a b : list Z) (n : nat) : forall lo,
  (forall i, In i a <-> In i b) ->
  first_not_in a lo n = first_not_in b lo n.
Proof.
  induction n as [|n IH]; intros lo H; [reflexivity|]. cbn [first_not_in].
  assert (Hm : mem_int lo a = mem_int lo b).
  { apply eq_iff_eq_true. rewrite !mem_int_In. apply H. }
  rewrite Hm. destruct (mem_int lo b); [now apply IH | reflexivity].
Qed.

Lemma next_free_index_bounds (current_indices : option (list Z)) :
  0 <= next_free_index current_indices < 1000
  /\ (forall j, 0 <= j < next_free_index current_indices ->
                In j (or_empty current_indices))
  /\ (next_free_index current_indices <> 0 ->
      ~ In (next_free_index current_indices) (or_empty current_indices)).
Proof.
  unfold next_free_index. destruct (truthy current_indices).
  - destruct (first_not_in (or_empty current_indices) 0 search_ceiling)
      as [r|] eqn:Hs.
    + apply first_not_in_found in Hs. destruct Hs as [Hr [Hnot Hbelow]].
      unfold search_ceiling in Hr. simpl Z.of_nat in Hr.
      split; [lia|]. split; [exact Hbelow | intros _; exact Hnot].
    + split; [lia|]. split; [intros j Hj; lia | intros H; now elim H].
  - split; [lia|]. split; [intros j Hj; lia | intros H; now elim H].
Qed.

(** X1: whatever the host lists, the index search returns an index of
    [0, 1000) below which every index is occupied; a result other than 0 is
    never an occupied index. *)
Theorem next_free_index_in_range (current_indices : option (list Z)) :
  0 <= next_free_index current_indices < 1000
  /\ (forall j, 0 <= j < next_free_index current_indices ->
                In j (or_empty current_indices))
  /\ (next_free_index current_indices <> 0 ->
      ~ In (next_free_index current_indices) (or_empty current_indices)).
Proof. exact (next_free_index_bounds current_indices). Qed.

(** X2: the index search depends only on which indices are occupied: two
    answers of the host that hold the same integers, in any order and with
    any repetition, [None] counting as no integer, give the same index. *)
Theorem next_free_index_of_the_set (c1 c2 : option (list Z)) :
  (forall i, In i (or_empty c1) <-> In i (or_empty c2)) ->
  next_free_index c1 = next_free_index c2.
Proof.
  intros H. unfold next_free_index.
  rewrite (first_not_in_ext _ _ search_ceiling 0 H).
  assert (Ht : truthy c1 = truthy c2).
  { destruct c1 as [[|x l]|], c2 as [[|y l']|]; cbn in *; try reflexivity;
      exfalso.
    - apply (H y). now left.
    - apply (H x). now left.
    - apply (H x). now left.
    - apply (H y). now left. }
  rewrite Ht. destruct (truthy c2); [|reflexivity].
  reflexivity.
Qed.

Lemma next_free_index_of_the_set_witness :
  next_free_index (Some [2; 0; 0; 5]) = next_free_index (Some [0; 5; 2]).
Proof.
  apply next_free_index_of_the_set. intros i. simpl. intuition.
Defined.

(** ** The plug name built for a connection *)

Lemma to_int_not_nil (z : Z) :
  Z.to_int z <> Decimal.Pos Decimal.Nil /\ Z.to_int z <> Decimal.Neg Decimal.Nil.
Proof.
  destruct z as [|p|p]; simpl; split; try discriminate.
  - intros H. injection H as H. revert H. apply DecimalPos.Unsigned.to_uint_nonnil.
  - intros H. injection H as H. revert H. apply DecimalPos.Unsigned.to_uint_nonnil.
Qed.

Lemma length_append (a b : string) :
  String.length (a ++ b) = (String.length a + String.length b)%nat.
Proof. induction a as [|c a IH]; simpl; [reflexivity | now rewrite IH]. Qed.

Lemma substring_skip (a b : string) (m : nat) :
  substring (String.length a) m (a ++ b) = substring 0 m b.
Proof. induction a as [|c a IH]; simpl; [reflexivity | exact IH]. Qed.

Lemma substring_take (a b : string) :
  substring 0 (String.length a) (a ++ b) = a.
Proof.
  induction a as [|c a IH]; simpl; [destruct b; reflexivity | now rewrite IH].
Qed.

Lemma element_index_built (attr : string) (i : Z) :
  Cmds.element_index attr (attr ++ "[" ++ str_of_int i ++ "]") = Some i.
Proof.
  unfold Cmds.element_index, Cmds.is_element_of.
  rewrite <- append_assoc, prefix_append.
  assert (Hin : substring (S (String.length attr))
            (String.length ((attr ++ "[") ++ str_of_int i ++ "]")
             - S (String.length attr) - 1)
            ((attr ++ "[") ++ str_of_int i ++ "]") = str_of_int i).
  { replace (S (String.length attr)) with (String.length (attr ++ "["))
      by (rewrite length_append; simpl; lia).
    rewrite substring_skip. rewrite !length_append. simpl String.length.
    replace (String.length attr + 1 + (String.length (str_of_int i) + 1)
             - (String.length attr + 1) - 1)%nat
      with (String.length (str_of_int i)) by lia.
    apply substring_take. }
  rewrite Hin. rewrite (append_assoc attr "[" (str_of_int i ++ "]")).
  rewrite String.eqb_refl. unfold str_of_int.
  destruct (to_int_not_nil i) as [H1 H2].
  rewrite NilZero.isi by assumption. now rewrite DecimalZ.of_to.
Qed.

Lemma dest_attr_split (light_shape : string) (i : Z) :
  dest_attr light_shape i
  = (light_shape ++ ".aiFilters") ++ "[" ++ str_of_int i ++ "]".
Proof. unfold dest_attr. now rewrite append_assoc. Qed.

Lemma dest_attr_recognised
  (blocker light_shape : string) (i : Z) :
  Cmds.element_index (light_shape ++ ".aiFilters") (dest_attr light_shape i)
  = Some i
  /\ Cmds.is_element_of (light_shape ++ ".aiFilters")
       (dest_attr light_shape i) = true
  /\ passes_test blocker (dest_attr light_shape i) (blocker ++ ".message")
     = true.
Proof.
  assert (Hidx : Cmds.element_index (light_shape ++ ".aiFilters")
                   (dest_attr light_shape i) = Some i).
  { rewrite dest_attr_split. apply element_index_built. }
  assert (Hel : Cmds.is_element_of (light_shape ++ ".aiFilters")
                  (dest_attr light_shape i) = true).
  { unfold Cmds.element_index in Hidx.
    destruct (Cmds.is_element_of _ _); [reflexivity | discriminate]. }
  split; [exact Hidx|]. split; [exact Hel|].
  unfold passes_test. rewrite String.eqb_refl.
  now rewrite (element_has_marker light_shape _ Hel).
Qed.

(** X3: the destination [connect_blocker] builds for a shape and an index
    is an element plug of that shape's filter array: the host reads the
    same index back from it, and together with the message plug of the
    blocker it passes the test of [disconnect_blocker], for every shape
    name and every index. *)
Theorem built_destination_is_recognised
  (blocker light_shape : string) (i : Z) :
  Cmds.element_index (light_shape ++ ".aiFilters") (dest_attr light_shape i)
  = Some i
  /\ Cmds.is_element_of (light_shape ++ ".aiFilters")
       (dest_attr light_shape i) = true
  /\ passes_test blocker (dest_attr light_shape i) (blocker ++ ".message")
     = true.
Proof. exact (dest_attr_recognised blocker light_shape i). Qed.

(** ** What one round of the loop of [connect_blocker] does to the links *)

Lemma occupied_In (attr : string) (ls : list (string * string)) (i : Z) :
  In i (occupied attr ls) <->
  exists l, In l ls /\ Cmds.element_index attr (snd l) = Some i.
Proof.
  unfold occupied. induction ls as [|l rest IH]; cbn [Cmds.filter_map].
  - split; [intros [] | intros [l [[] _]]].
  - destruct (Cmds.element_index attr (snd l)) as [j|] eqn:E.
    + cbn [In]. rewrite IH. split.
      * intros [->|[l' [Hin H]]]; [exists l | exists l']; cbn; auto.
      * intros [l' [[<-|Hin] H]]; [left; congruence | right; eauto].
    + rewrite IH. split.
      * intros [l' [Hin H]]. exists l'. cbn. auto.
      * intros [l' [[<-|Hin] H]]; [congruence | eauto].
Qed.

Lemma next_free_index_unoccupied (cur : list Z) :
  (exists i, 0 <= i < 1000 /\ ~ In i cur) ->
  is_mex cur (next_free_index (none_if_empty cur)).
Proof.
  intros [i [Hi Hfree]].
  destruct (next_free_index_bounds (none_if_empty cur)) as [Hr [Hbelow Hnz]].
  rewrite or_empty_none_if_empty in *.
  split; [lia|]. split; [|exact Hbelow].
  destruct (Z.eq_dec (next_free_index (none_if_empty cur)) 0) as [H0|H0];
    [|now apply Hnz].
  intros Hin. unfold next_free_index in H0, Hin.
  rewrite truthy_none_if_empty, or_empty_none_if_empty in *.
  destruct cur as [|x l]; [destruct Hin|].
  destruct (first_not_in (x :: l) 0 search_ceiling) as [r|] eqn:Hs.
  - apply first_not_in_found in Hs. tauto.
  - apply Hfree. apply (first_not_in_exhausted _ _ _ Hs).
    unfold search_ceiling. simpl Z.of_nat. lia.
Qed.

Lemma connect_light_shaped (blocker t sh : string) (more : list string) (s : Session) :
  resolves (host s) t = true ->
  Cmds.lookup_children t (children (host s)) = sh :: more ->
  connect_light blocker t s
  = connect_at blocker
      (dest_attr sh (next_free_index
                       (none_if_empty (occupied (sh ++ ".aiFilters") (links (host s)))))) s.
Proof.
  unfold resolves. intros Hres Hsh. rewrite Hsh in Hres.
  apply andb_true_iff in Hres. destruct Hres as [Hn Ha].
  unfold connect_light, bind at 1. unfold Cmds.listRelatives_s, query at 1.
  rewrite Hn, Hsh. cbv beta iota zeta delta [or_empty none_if_empty].
  unfold bind at 1. unfold Cmds.getAttr_multiIndices, query at 1.
  rewrite Ha. reflexivity.
Qed.

Lemma connect_at_accepted (blocker dest attr : string) (s : Session) :
  ~ In dest (locked (host s)) ->
  In attr (arrays (host s)) ->
  (exists i, Cmds.element_index attr dest = Some i) ->
  ~ In (blocker ++ ".message", dest) (links (host s)) ->
  connect_at blocker dest s
  = (Ok tt,
     mkSession
       (Cmds.set_links
          (filter (fun l => negb (snd l =? dest)%string) (links (host s))
             ++ [(blocker ++ ".message", dest)])
          (host s))
       (out s ++ [Printed ("Connected " ++ blocker ++ ".message -> "
                           ++ dest)])).
Proof.
  intros Hlock Hattr [i Hi] Hnew.
  unfold connect_at, try_except, bind, Cmds.connectAttr_f, command.
  apply mem_str_false in Hlock. rewrite Hlock.
  assert (Hknown : existsb (fun a => match Cmds.element_index a dest with
                                     | Some _ => true
                                     | None => false
                                     end) (arrays (host s)) = true).
  { apply existsb_exists. exists attr. split; [exact Hattr|]. now rewrite Hi. }
  rewrite Hknown. cbn [negb].
  assert (Hl : Cmds.has_link (blocker ++ ".message", dest) (links (host s))
               = false).
  { apply not_true_is_false. intros H. now apply has_link_In in H. }
  rewrite Hl. reflexivity.
Qed.

Lemma connect_light_fresh
  (blocker t light_shape : string) (more : list string) (s : Session) :
  let w := host s in
  let attr := light_shape ++ ".aiFilters" in
  let idx := next_free_index (none_if_empty (occupied attr (links w))) in
  let dest := dest_attr light_shape idx in
  resolves w t = true ->
  Cmds.lookup_children t (children w) = light_shape :: more ->
  (exists i, 0 <= i < 1000 /\ ~ In i (occupied attr (links w))) ->
  ~ In dest (locked w) ->
  is_mex (occupied attr (links w)) idx
  /\ connect_light blocker t s
     = (Ok tt,
        mkSession
          (Cmds.set_links (links w ++ [(blocker ++ ".message", dest)]) w)
          (out s ++ [Printed ("Connected " ++ blocker ++ ".message -> "
                              ++ dest)])).
Proof.
  intros w attr idx dest Hres Hsh Hfree Hlock.
  assert (Hmex : is_mex (occupied attr (links w)) idx)
    by (apply next_free_index_unoccupied; exact Hfree).
  split; [exact Hmex|].
  assert (Hnone : forall l, In l (links w) -> (snd l =? dest)%string = false).
  { intros l Hl. apply String.eqb_neq. intros Heq.
    destruct Hmex as [_ [Hnot _]]. apply Hnot. apply occupied_In.
    exists l. split; [exact Hl|]. rewrite Heq.
    exact (proj1 (dest_attr_recognised blocker light_shape idx)). }
  rewrite (connect_light_shaped blocker t light_shape more s Hres Hsh).
  eapply eq_trans; [apply (connect_at_accepted blocker dest attr s)|].
  5: { rewrite filter_all; [reflexivity|]. intros l Hl.
       now rewrite (Hnone l Hl). }
  - exact Hlock.
  - unfold resolves in Hres. fold w in Hres. rewrite Hsh in Hres.
    apply andb_true_iff in Hres. apply mem_str_In. exact (proj2 Hres).
  - exists idx.
    exact (proj1 (dest_attr_recognised blocker light_shape idx)).
  - intros Hin. specialize (Hnone _ Hin). cbn [snd] in Hnone.
    now rewrite String.eqb_refl in Hnone.
Qed.

(** X4: for a light that resolves to a shape whose filter array has a free
    index below 1000, with the element at the least free index not locked,
    the round of [connect_blocker]'s loop returns normally, prints the
    connection, and the links are the links before with one more at the
    end, from the blocker's message plug to the element at the least free
    index: no link is removed or replaced. *)
Theorem connect_light_adds_one_link
  (blocker t light_shape : string) (more : list string) (s : Session) :
  let w := host s in
  let attr := light_shape ++ ".aiFilters" in
  let idx := next_free_index (none_if_empty (occupied attr (links w))) in
  let dest := dest_attr light_shape idx in
  resolves w t = true ->
  Cmds.lookup_children t (children w) = light_shape :: more ->
  (exists i, 0 <= i < 1000 /\ ~ In i (occupied attr (links w))) ->
  ~ In dest (locked w) ->
  is_mex (occupied attr (links w)) idx
  /\ connect_light blocker t s
     = (Ok tt,
        mkSession
          (Cmds.set_links (links w ++ [(blocker ++ ".message", dest)]) w)
          (out s ++ [Printed ("Connected " ++ blocker ++ ".message -> "
                              ++ dest)])).
Proof. exact (connect_light_fresh blocker t light_shape more s). Qed.

Lemma connect_light_adds_one_link_witness :
  connect_light "blk" "key" (mkSession wired [])
  = (Ok tt,
     mkSession
       (Cmds.set_links
          (links wired ++ [("blk.message", "|key|keyShape.aiFilters[2]")])
          wired)
       [Printed "Connected blk.message -> |key|keyShape.aiFilters[2]"]).
Proof.
  refine (proj2 (connect_light_adds_one_link "blk" "key" "|key|keyShape" []
                   (mkSession wired []) _ _ _ _)).
  - reflexivity.
  - reflexivity.
  - exists 2. split; [lia|]. vm_compute. intros [H|[H|[H|[]]]]; discriminate.
  - vm_compute. intros [].
Defined.

Lemma next_free_index_full (cur : list Z) :
  (forall i, 0 <= i < 1000 -> In i cur) ->
  next_free_index (none_if_empty cur) = 0.
Proof.
  intros Hcover. unfold next_free_index.
  destruct (truthy (none_if_empty cur)); [|reflexivity].
  rewrite or_empty_none_if_empty.
  destruct (first_not_in cur 0 search_ceiling) as [r|] eqn:Hs; [|reflexivity].
  apply first_not_in_found in Hs. destruct Hs as [Hr [Hnot _]].
  exfalso. apply Hnot, Hcover. unfold search_ceiling in Hr.
  simpl Z.of_nat in Hr. lia.
Qed.

(** X5: for a light that resolves to a shape whose filter array is occupied
    at every index below 1000, with element 0 not locked and not already
    fed by the blocker, the round of [connect_blocker]'s loop returns
    normally and connects the blocker at element 0 with [f=True]: the link
    that fed element 0 before is no longer there. *)
Theorem connect_light_full_replaces_element_zero
  (blocker t light_shape : string) (more : list string) (s : Session) :
  let w := host s in
  let attr := light_shape ++ ".aiFilters" in
  let dest := dest_attr light_shape 0 in
  let links' := List.app
                  (filter (fun l => negb (snd l =? dest)%string) (links w))
                  [(blocker ++ ".message", dest)] in
  resolves w t = true ->
  Cmds.lookup_children t (children w) = light_shape :: more ->
  (forall i, 0 <= i < 1000 -> In i (occupied attr (links w))) ->
  ~ In dest (locked w) ->
  ~ In (blocker ++ ".message", dest) (links w) ->
  connect_light blocker t s
  = (Ok tt,
     mkSession (Cmds.set_links links' w)
       (out s ++ [Printed ("Connected " ++ blocker ++ ".message -> "
                           ++ dest)]))
  /\ forall src, In (src, dest) (links w) -> ~ In (src, dest) links'.
Proof.
  intros w attr dest links' Hres Hsh Hcover Hlock Hnew. split.
  - rewrite (connect_light_shaped blocker t light_shape more s Hres Hsh).
    fold w. fold attr. rewrite (next_free_index_full _ Hcover). fold dest.
    apply (connect_at_accepted blocker dest attr s).
    + exact Hlock.
    + unfold resolves in Hres. fold w in Hres. rewrite Hsh in Hres.
      apply andb_true_iff in Hres. apply mem_str_In. exact (proj2 Hres).
    + exists 0.
      exact (proj1 (dest_attr_recognised blocker light_shape 0)).
    + exact Hnew.
  - intros src Hin Hin'. unfold links' in Hin'. apply in_app_or in Hin'.
    destruct Hin' as [H|[H|[]]].
    + apply filter_In in H. destruct H as [_ H]. cbn [snd] in H.
      now rewrite String.eqb_refl in H.
    + injection H as <-. contradiction.
Qed.

Lemma connect_light_full_replaces_element_zero_witness :
  ~ In ("old.message", "|key|keyShape.aiFilters[0]")
       (links (host (snd (connect_light "blk" "key" (mkSession crowded [])))))
  /\ In ("blk.message", "|key|keyShape.aiFilters[0]")
        (links (host (snd (connect_light "blk" "key"
                             (mkSession crowded []))))).
Proof.
  destruct (connect_light_full_replaces_element_zero "blk" "key"
              "|key|keyShape" [] (mkSession crowded [])) as [Hrun Hgone].
  - reflexivity.
  - reflexivity.
  - intros i Hi.
    replace (occupied ("|key|keyShape" ++ ".aiFilters")
               (links (host (mkSession crowded []))))
      with (map Z.of_nat (seq 0 1000)) by (vm_compute; reflexivity).
    apply in_map_iff. exists (Z.to_nat i). split; [lia|]. apply in_seq. lia.
  - vm_compute. intros [].
  - intros Hin. apply in_map_iff in Hin. destruct Hin as [n [Hn _]].
    discriminate.
  - rewrite Hrun. cbn [snd host links Cmds.set_links]. split.
    + apply Hgone. apply in_map_iff. exists 0%nat. split; [reflexivity|].
      apply in_seq. lia.
    + apply in_or_app. right. now left.
Defined.

(** ** What each handler leaves alone *)

Lemma for_each_keeps {A} (R : World -> World -> Prop) (body : A -> M unit)
  (xs : list A) :
  (forall w, R w w) ->
  (forall a b c, R a b -> R b c -> R a c) ->
  (forall x s, R (host s) (host (snd (body x s)))) ->
  forall s, R (host s) (host (snd (for_each xs body s))).
Proof.
  intros Hrefl Htrans Hbody. induction xs as [|x rest IH]; intros s.
  - apply Hrefl.
  - cbn [for_each]. unfold bind. specialize (Hbody x s).
    destruct (body x s) as [[[]|e] s1]; cbn [snd] in *.
    + eapply Htrans; [exact Hbody | apply IH].
    + exact Hbody.
Qed.

Lemma only_links_differ_refl (w : World) : only_links_differ w w.
Proof. unfold only_links_differ. now rewrite set_links_same. Qed.

Lemma only_links_differ_trans (a b c : World) :
  only_links_differ a b -> only_links_differ b c -> only_links_differ a c.
Proof.
  unfold only_links_differ. intros Hab Hbc. rewrite Hbc, Hab. reflexivity.
Qed.

Lemma only_items_differ_refl (w : World) : only_items_differ w w.
Proof. unfold only_items_differ. now rewrite set_items_same. Qed.

Lemma only_items_differ_trans (a b c : World) :
  only_items_differ a b -> only_items_differ b c -> only_items_differ a c.
Proof.
  unfold only_items_differ. intros Hab Hbc. rewrite Hbc, Hab. reflexivity.
Qed.

Lemma connect_light_keeps (blocker t : string) (s : Session) :
  only_links_differ (host s) (host (snd (connect_light blocker t s))).
Proof.
  unfold connect_light, bind at 1. unfold Cmds.listRelatives_s, query at 1.
  destruct (mem_str t (nodes (host s))); [|apply only_links_differ_refl].
  cbv zeta. rewrite or_empty_none_if_empty.
  destruct (Cmds.lookup_children t (children (host s))) as [|sh more].
  - apply only_links_differ_refl.
  - unfold bind, Cmds.getAttr_multiIndices, query.
    destruct (mem_str (sh ++ ".aiFilters") (arrays (host s)));
      [|apply only_links_differ_refl].
    destruct (connect_at_cases blocker
                (dest_attr sh (next_free_index
                   (none_if_empty
                      (Cmds.filter_map
                         (fun l => Cmds.element_index (sh ++ ".aiFilters")
                                                      (snd l))
                         (links (host s)))))) s) as [ls [ev H]].
    rewrite H. reflexivity.
Qed.

Lemma connect_blocker_keeps (s : Session) :
  only_links_differ (host s) (host (snd (connect_blocker s))).
Proof.
  rewrite connect_blocker_run. cbv zeta.
  destruct (_ || _); [apply only_links_differ_refl|].
  destruct (lightListTSL (host s)); [apply only_links_differ_refl|].
  apply for_each_keeps.
  - apply only_links_differ_refl.
  - apply only_links_differ_trans.
  - intros x st. apply connect_light_keeps.
Qed.

Lemma disconnect_blocker_keeps (s : Session) :
  only_links_differ (host s) (host (snd (disconnect_blocker s))).
Proof.
  destruct (disconnect_blocker_effect s) as [r [evs [H _]]].
  rewrite H. reflexivity.
Qed.

Lemma remove_selected_lights_keeps (s : Session) :
  only_items_differ (host s) (host (snd (remove_selected_lights s))).
Proof.
  rewrite remove_selected_lights_run.
  destruct (map fst (filter snd (lightListTSL (host s))));
    [apply only_items_differ_refl|].
  apply for_each_keeps.
  - apply only_items_differ_refl.
  - apply only_items_differ_trans.
  - intros x st. unfold Cmds.textScrollList_ri, command.
    destruct (mem_str x (map fst (lightListTSL (host st))));
      [reflexivity | apply only_items_differ_refl].
Qed.

(** X6: each handler changes at most its own part of the host, whether it
    returns or raises: [pick_light_blocker] the text of the blocker field,
    [add_selected_lights] and [remove_selected_lights] the items of the
    light list, [connect_blocker] and [disconnect_blocker] the
    connections.  None of them touches the selection, the objects, their
    shapes, the existing attributes or the locks. *)
Theorem handlers_change_their_own_part (s : Session) :
  only_field_differs (host s) (host (snd (pick_light_blocker s)))
  /\ only_items_differ (host s) (host (snd (add_selected_lights s)))
  /\ only_items_differ (host s) (host (snd (remove_selected_lights s)))
  /\ only_links_differ (host s) (host (snd (connect_blocker s)))
  /\ only_links_differ (host s) (host (snd (disconnect_blocker s))).
Proof.
  split; [|split; [|split; [|split]]].
  - rewrite pick_light_blocker_run. unfold only_field_differs.
    destruct (selection (host s)); cbn [snd host]; [|reflexivity].
    now destruct (host s).
  - rewrite add_selected_lights_run.
    destruct (selection (host s)); cbn [snd host];
      [apply only_items_differ_refl | reflexivity].
  - apply remove_selected_lights_keeps.
  - apply connect_blocker_keeps.
  - apply disconnect_blocker_keeps.
Qed.

(** ** A query that raises *)

Lemma connect_light_unresolved (blocker t : string) (s : Session) :
  resolves (host s) t = false ->
  exists e, connect_light blocker t s = (Raised e, s).
Proof.
  unfold resolves. intros H.
  unfold connect_light, bind at 1. unfold Cmds.listRelatives_s, query at 1.
  destruct (mem_str t (nodes (host s))); [|eexists; reflexivity].
  cbn [andb] in H. cbv zeta. rewrite or_empty_none_if_empty.
  destruct (Cmds.lookup_children t (children (host s))) as [|sh more];
    [discriminate|].
  unfold bind, Cmds.getAttr_multiIndices, query. rewrite H.
  eexists. reflexivity.
Qed.

Lemma disconnect_light_unresolved (blocker t : string) (s : Session) :
  resolves (host s) t = false ->
  exists e, disconnect_light blocker t s = (Raised e, s).
Proof.
  unfold resolves. intros H.
  unfold disconnect_light, bind at 1. unfold Cmds.listRelatives_s, query at 1.
  destruct (mem_str t (nodes (host s))); [|eexists; reflexivity].
  cbn [andb] in H. cbv zeta. rewrite or_empty_none_if_empty.
  destruct (Cmds.lookup_children t (children (host s))) as [|sh more];
    [discriminate|].
  unfold bind, Cmds.listConnections_pc, query. rewrite H.
  eexists. reflexivity.
Qed.

Lemma disconnect_light_keeps (blocker t : string) (s : Session) :
  only_links_differ (host s) (host (snd (disconnect_light blocker t s))).
Proof.
  destruct (disconnect_light_run blocker t s) as [r [evs [H _]]].
  rewrite H. reflexivity.
Qed.

Lemma resolves_only_links (w w' : World) (t : string) :
  only_links_differ w w' -> resolves w' t = resolves w t.
Proof. unfold only_links_differ. intros ->. reflexivity. Qed.

(** X7: the queries of the two loops are outside the [try] statements.
    With a valid blocker, when the name [x] in the light list does not
    resolve in the host (no such object, or its first shape without the
    filter array), [connect_blocker] and [disconnect_blocker] raise at [x]:
    they end in the state the lights before [x] left, write nothing about
    [x], and do not get to the lights after [x]. *)
Theorem query_error_ends_the_batch
  (s : Session) (pre post : list string) (x : string) :
  let blocker := lightBlockerField (host s) in
  blocker_valid (host s) = true ->
  light_names (host s) = (pre ++ x :: post)%list ->
  resolves (host s) x = false ->
  (forall s1, for_each pre (connect_light blocker) s = (Ok tt, s1) ->
              exists e, connect_blocker s = (Raised e, s1))
  /\ (forall s1, for_each pre (disconnect_light blocker) s = (Ok tt, s1) ->
                 exists e, disconnect_blocker s = (Raised e, s1)).
Proof.
  intros blocker Hv Hnames Hbad.
  assert (Hne : lightListTSL (host s) <> []).
  { unfold light_names in Hnames. intros E. rewrite E in Hnames.
    destruct pre; discriminate. }
  split; intros s1 Hpre.
  - rewrite connect_blocker_run. cbv zeta. rewrite blocker_check, Hv.
    cbn [negb]. destruct (lightListTSL (host s)) eqn:E; [congruence|].
    rewrite <- E. fold (light_names (host s)). fold blocker.
    rewrite Hnames, for_each_app, Hpre. cbn [for_each]. unfold bind.
    assert (Hbad1 : resolves (host s1) x = false).
    { rewrite <- Hbad. apply resolves_only_links.
      replace s1 with (snd (for_each pre (connect_light blocker) s))
        by (now rewrite Hpre).
      apply for_each_keeps.
      - apply only_links_differ_refl.
      - apply only_links_differ_trans.
      - intros t st. apply connect_light_keeps. }
    destruct (connect_light_unresolved blocker x s1 Hbad1) as [e He].
    rewrite He. exists e. reflexivity.
  - rewrite disconnect_blocker_run. cbv zeta. rewrite blocker_check, Hv.
    cbn [negb]. destruct (lightListTSL (host s)) eqn:E; [congruence|].
    rewrite <- E. fold (light_names (host s)). fold blocker.
    rewrite Hnames, for_each_app, Hpre. cbn [for_each]. unfold bind.
    assert (Hbad1 : resolves (host s1) x = false).
    { rewrite <- Hbad. apply resolves_only_links.
      replace s1 with (snd (for_each pre (disconnect_light blocker) s))
        by (now rewrite Hpre).
      apply for_each_keeps.
      - apply only_links_differ_refl.
      - apply only_links_differ_trans.
      - intros t st. apply disconnect_light_keeps. }
    destruct (disconnect_light_unresolved blocker x s1 Hbad1) as [e He].
    rewrite He. exists e. reflexivity.
Qed.

Lemma query_error_ends_the_batch_witness :
  (exists e, connect_blocker (mkSession haunted [])
             = (Raised e, mkSession haunted []))
  /\ (exists e, disconnect_blocker (mkSession haunted [])
                = (Raised e, mkSession haunted [])).
Proof.
  destruct (query_error_ends_the_batch (mkSession haunted []) [] ["key"]
              "ghost") as [Hc Hd].
  - reflexivity.
  - reflexivity.
  - reflexivity.
  - split; [apply Hc | apply Hd]; reflexivity.
Defined.

(** ** The pair loop on any list *)

Lemma str_in_spec (needle hay : string) :
  str_in needle hay = true <-> exists a k, hay = a ++ needle ++ k.
Proof.
  split.
  - induction hay as [|c rest IH]; rewrite str_in_unfold.
    + destruct (String.prefix needle "") eqn:E; [|discriminate].
      intros _. apply prefix_split in E. destruct E as [k E].
      exists "", k. exact E.
    + destruct (String.prefix needle (String c rest)) eqn:E.
      * intros _. apply prefix_split in E. destruct E as [k E].
        exists "", k. exact E.
      * intros H. destruct (IH H) as [a [k ->]].
        exists (String c a), k. reflexivity.
  - intros [a [k ->]]. apply str_in_middle.
Qed.

(** X8: on any flat list of pairs, the pair loop of [disconnect_blocker] is
    one removal attempt, in order, for each pair that passes the test, and
    nothing for the others; a pair passes exactly when its second entry is
    the blocker's message plug and its first entry contains the text
    [.aiFilters[] somewhere: the shape in front of it is not looked at. *)
Theorem pair_loop_tests_source_and_marker
  (blocker : string) (ps : list (string * string)) (s : Session) :
  disconnect_pairs blocker (flatten_pairs ps) s
  = for_each (filter (fun p => passes_test blocker (fst p) (snd p)) ps)
             (fun p => disconnect_at (snd p) (fst p)) s
  /\ forall dest_plug src_plug,
       passes_test blocker dest_plug src_plug = true <->
       src_plug = blocker ++ ".message"
       /\ exists a k, dest_plug = a ++ ".aiFilters[" ++ k.
Proof.
  split.
  - revert s. induction ps as [|[d src] ps IH]; intros s; [reflexivity|].
    cbn [flatten_pairs flat_map fst snd app disconnect_pairs filter].
    unfold bind at 1. unfold disconnect_pair.
    change ((blocker ++ ".message" =? src)%string
            && str_in ".aiFilters[" d)
      with (passes_test blocker d src).
    destruct (passes_test blocker d src).
    + cbn [for_each fst snd]. unfold bind.
      destruct (disconnect_at src d s) as [[[]|e] s1];
        [apply IH | reflexivity].
    + unfold ret. apply IH.
  - intros d src. unfold passes_test.
    rewrite andb_true_iff, String.eqb_eq, str_in_spec.
    split; intros [H1 H2]; (split; [now symmetry | exact H2]).
Qed.

Lemma disconnect_at_returns (src_plug dest_plug : string) (s : Session) :
  exists s1, disconnect_at src_plug dest_plug s = (Ok tt, s1).
Proof.
  unfold disconnect_at, try_except, bind.
  destruct (Cmds.disconnectAttr src_plug dest_plug s) as [[[]|e] s1];
    eexists; reflexivity.
Qed.

(** X9: [connections[i+1]] has no guard.  On a flat list with an odd number
    of entries the pair loop handles every complete pair as it does on the
    list without its last entry, and then raises [list index out of range]
    from the state it is in. *)
Theorem odd_connection_list_raises
  (blocker : string) (ps : list (string * string)) (last : string)
  (s : Session) :
  exists s1,
    disconnect_pairs blocker (flatten_pairs ps) s = (Ok tt, s1)
    /\ disconnect_pairs blocker (flatten_pairs ps ++ [last]) s
       = (Raised "list index out of range", s1).
Proof.
  revert s. induction ps as [|[d src] ps IH]; intros s.
  - exists s. split; reflexivity.
  - cbn [flatten_pairs flat_map fst snd app disconnect_pairs].
    unfold bind. unfold disconnect_pair.
    destruct ((blocker ++ ".message" =? src)%string
              && str_in ".aiFilters[" d).
    + destruct (disconnect_at_returns src d s) as [s0 H0]. rewrite H0.
      apply IH.
    + unfold ret. apply IH.
Qed.

(** ** What [disconnect_blocker] takes away, and what it never does *)

Lemma reached_incl (w : World) (lights : list string) :
  forall t, In t (reached w lights) -> In t lights.
Proof.
  induction lights as [|x rest IH]; intros t H; [exact H|].
  cbn [reached] in H. destruct (resolves w x); [|destruct H].
  destruct H as [<-|H]; [now left | right; now apply IH].
Qed.

Lemma removable_spec (blocker attr : string) (lck : list string)
  (src dst : string) :
  removable blocker attr lck (src, dst) = true <->
  src = blocker ++ ".message"
  /\ Cmds.is_element_of attr dst = true
  /\ ~ In dst lck.
Proof.
  unfold removable. cbn [fst snd].
  rewrite !andb_true_iff, String.eqb_eq, negb_true_iff, mem_str_false.
  intuition.
Qed.

(** A link survives [disconnect_blocker] when no listed light makes it
    removable. *)
Lemma stays_when (w : World) (src dst : string) :
  (forall t light_shape more,
      In t (light_names w) ->
      Cmds.lookup_children t (children w) = light_shape :: more ->
      removable (lightBlockerField w) (light_shape ++ ".aiFilters")
                (locked w) (src, dst) = false) ->
  stays w (src, dst) = true.
Proof.
  intros H. unfold stays. destruct (blocker_valid w); [|reflexivity].
  apply forallb_forall. intros t Ht. apply reached_incl in Ht.
  unfold keep. destruct (resolves w t); [|reflexivity].
  destruct (Cmds.lookup_children t (children w)) as [|sh more] eqn:E;
    [reflexivity|].
  now rewrite (H t sh more Ht E).
Qed.

(** X10: whatever the state and whether it returns or raises,
    [disconnect_blocker] never adds a connection, and never takes away a
    connection whose source is not the message plug of the blocker in the
    field, whose destination is locked, or whose destination is not an
    element of the filter array of the first shape of a listed light. *)
Theorem disconnect_blocker_spares (s : Session) :
  let w := host s in
  let w' := host (snd (disconnect_blocker s)) in
  (forall l, In l (links w') -> In l (links w))
  /\ (forall src dst,
        In (src, dst) (links w) ->
        src <> lightBlockerField w ++ ".message"
        \/ In dst (locked w)
        \/ (forall t light_shape more,
              In t (light_names w) ->
              Cmds.lookup_children t (children w) = light_shape :: more ->
              Cmds.is_element_of (light_shape ++ ".aiFilters") dst = false) ->
        In (src, dst) (links w')).
Proof.
  intros w w'. unfold w'.
  destruct (disconnect_blocker_effect s) as [r [evs [H _]]].
  rewrite H. cbn [snd host links Cmds.set_links]. fold w. split.
  - intros l Hl. apply filter_In in Hl. tauto.
  - intros src dst Hin Hwhy. apply filter_In. split; [exact Hin|].
    apply stays_when. intros t sh more Ht Hsh.
    apply not_true_is_false. intros Hrem. apply removable_spec in Hrem.
    destruct Hrem as [Hsrc [Hel Hlock]].
    destruct Hwhy as [Hne|[Hl|Hno]]; [tauto | tauto |].
    rewrite (Hno t sh more Ht Hsh) in Hel. discriminate.
Qed.

(** X11: with a valid blocker and every listed name resolving,
    [disconnect_blocker] returns normally and takes away exactly the
    connections from the blocker's message plug to an unlocked element of
    the filter array of the first shape of a listed light; every other
    connection is kept. *)
Theorem disconnect_blocker_takes_exactly (s : Session) :
  let w := host s in
  blocker_valid w = true ->
  forallb (resolves w) (light_names w) = true ->
  exists s',
    disconnect_blocker s = (Ok tt, s')
    /\ forall src dst,
         In (src, dst) (links (host s')) <->
         In (src, dst) (links w)
         /\ ~ (src = lightBlockerField w ++ ".message"
               /\ ~ In dst (locked w)
               /\ exists t light_shape more,
                    In t (light_names w)
                    /\ Cmds.lookup_children t (children w)
                       = light_shape :: more
                    /\ Cmds.is_element_of (light_shape ++ ".aiFilters") dst
                       = true).
Proof.
  intros w Hv Hres.
  destruct (disconnect_blocker_effect s) as [r [evs [H Hr]]].
  rewrite (Hr Hres) in H. eexists. split; [exact H|].
  intros src dst. cbn [host links Cmds.set_links]. fold w.
  rewrite filter_In. split; intros [Hin Hst]; (split; [exact Hin|]).
  - intros [Hsrc [Hlock [t [sh [more [Ht [Hsh Hel]]]]]]].
    unfold stays in Hst. rewrite Hv, (reached_all w _ Hres) in Hst.
    rewrite forallb_forall in Hst. specialize (Hst t Ht).
    unfold keep in Hst. rewrite forallb_forall in Hres.
    rewrite (Hres t Ht), Hsh in Hst. apply negb_true_iff in Hst.
    assert (Hrem : removable (lightBlockerField w) (sh ++ ".aiFilters")
                     (locked w) (src, dst) = true)
      by (apply removable_spec; tauto).
    congruence.
  - apply stays_when. intros t sh more Ht Hsh.
    apply not_true_is_false. intros Hrem. apply removable_spec in Hrem.
    apply Hst. destruct Hrem as [Hsrc [Hel Hlock]].
    split; [exact Hsrc|]. split; [exact Hlock|].
    exists t, sh, more. tauto.
Qed.

Lemma disconnect_blocker_takes_exactly_witness :
  exists s',
    disconnect_blocker (mkSession wired []) = (Ok tt, s')
    /\ links (host s') = [("old.message", "|key|keyShape.aiFilters[1]")].
Proof.
  destruct (disconnect_blocker_takes_exactly (mkSession wired []))
    as [s' [Hrun _]].
  - reflexivity.
  - reflexivity.
  - exists s'. split; [exact Hrun|].
    vm_compute in Hrun. injection Hrun as <-. reflexivity.
Defined.

(** ** The light list over a session *)

(** X12: on a light list without duplicate names,
    [remove_selected_lights] returns normally and leaves exactly the items
    that were not selected, in their order; no item is selected afterwards
    and nothing else in the host changes. *)
Theorem remove_selected_lights_leaves_unselected (s : Session) :
  NoDup (light_names (host s)) ->
  exists s',
    remove_selected_lights s = (Ok tt, s')
    /\ host s'
       = Cmds.set_items
           (filter (fun p => negb (snd p)) (lightListTSL (host s))) (host s)
    /\ filter snd (lightListTSL (host s')) = [].
Proof.
  intros Hnd. destruct (remove_selected_lights_effect s Hnd) as [evs H].
  eexists. split; [exact H|]. split; [reflexivity|].
  cbn [host lightListTSL Cmds.set_items]. clear H Hnd.
  induction (lightListTSL (host s)) as [|[n f] rest IH]; [reflexivity|].
  cbn [filter snd]. destruct f; cbn [negb filter snd]; exact IH.
Qed.

Lemma remove_selected_lights_leaves_unselected_witness :
  exists s',
    remove_selected_lights (mkSession chosen []) = (Ok tt, s')
    /\ lightListTSL (host s') = [("rim", false)].
Proof.
  destruct (remove_selected_lights_leaves_unselected (mkSession chosen []))
    as [s' [Hrun [Hhost _]]].
  - repeat constructor; simpl; intuition discriminate.
  - exists s'. split; [exact Hrun|]. rewrite Hhost. reflexivity.
Defined.

(** X13: with nothing selected in the scene [add_selected_lights] writes
    one warning, returns normally and leaves the host as it was, and so
    does [remove_selected_lights] with no item selected in the list. *)
Theorem empty_selection_only_warns (s : Session) :
  (selection (host s) = [] -> only_warns add_selected_lights s)
  /\ (filter snd (lightListTSL (host s)) = [] ->
      only_warns remove_selected_lights s).
Proof.
  unfold only_warns. split; intros H.
  - rewrite add_selected_lights_run, H. eexists. reflexivity.
  - rewrite remove_selected_lights_run, H. eexists. reflexivity.
Qed.

Lemma empty_selection_only_warns_witness :
  only_warns add_selected_lights (mkSession stage [])
  /\ only_warns remove_selected_lights (mkSession stage []).
Proof.
  split.
  - apply (proj1 (empty_selection_only_warns (mkSession stage []))).
    reflexivity.
  - apply (proj2 (empty_selection_only_warns (mkSession stage []))).
    reflexivity.
Defined.

Lemma light_names_only_links (w w' : World) :
  only_links_differ w w' -> light_names w' = light_names w.
Proof. unfold only_links_differ. intros ->. reflexivity. Qed.

(** X14: in every host a window can be in, from [build_ui] on through any
    presses of the five buttons and any changes in between that leave the
    names of the light list alone, the light list holds no name twice, and
    [remove_selected_lights] returns normally there. *)
Theorem reachable_list_has_no_duplicates (w : World) :
  reachable w ->
  NoDup (light_names w)
  /\ forall log, fst (remove_selected_lights (mkSession w log)) = Ok tt.
Proof.
  intros Hreach.
  assert (Hnd : NoDup (light_names w)).
  { induction Hreach as [w0|b w0 log _ IH|w0 w1 _ IH Hsame].
    - constructor.
    - destruct b; cbn [pressed].
      + rewrite pick_light_blocker_run. cbn [host].
        destruct (selection w0); exact IH.
      + exact (proj1 (proj2 (light_list_duplicate_free w0
                               (mkSession w0 log)) IH)).
      + exact (proj2 (proj2 (light_list_duplicate_free w0
                               (mkSession w0 log)) IH)).
      + rewrite (light_names_only_links w0).
        * exact IH.
        * exact (connect_blocker_keeps (mkSession w0 log)).
      + rewrite (light_names_only_links w0).
        * exact IH.
        * exact (disconnect_blocker_keeps (mkSession w0 log)).
    - now rewrite Hsame. }
  split; [exact Hnd|]. intros log.
  destruct (remove_selected_lights_effect (mkSession w log) Hnd) as [evs H].
  now rewrite H.
Qed.

Lemma reachable_list_has_no_duplicates_witness :
  NoDup (light_names
           (host (snd (add_selected_lights
                         (mkSession
                            (build_ui
                               (mkWorld ["key"; "rim"; "key"] "blk"
                                        [("old", true)]
                                        ["key"; "rim"] [] [] [] []))
                            [])))))
  /\ light_names
       (host (snd (add_selected_lights
                     (mkSession
                        (build_ui
                           (mkWorld ["key"; "rim"; "key"] "blk"
                                    [("old", true)]
                                    ["key"; "rim"] [] [] [] []))
                        []))))
     = ["key"; "rim"].
Proof.
  split; [|reflexivity].
  refine (proj1 (reachable_list_has_no_duplicates _ _)).
  apply (reach_button AddSelectedLights
           (build_ui (mkWorld ["key"; "rim"; "key"] "blk" [("old", true)]
                              ["key"; "rim"] [] [] [] []))
           []).
  apply reach_build_ui.
Defined.

(** X15: [build_ui] leaves an empty blocker field and an empty light list,
    so on a window just built, whatever the scene, [connect_blocker],
    [disconnect_blocker] and [remove_selected_lights] each write one
    warning, return normally and leave the host as it is. *)
Theorem fresh_window_only_warns (w : World) (log : list Event) :
  let s := mkSession (build_ui w) log in
  only_warns connect_blocker s
  /\ only_warns disconnect_blocker s
  /\ only_warns remove_selected_lights s.
Proof.
  intros s. unfold only_warns. split; [|split].
  - rewrite connect_blocker_run. eexists. reflexivity.
  - rewrite disconnect_blocker_run. eexists. reflexivity.
  - rewrite remove_selected_lights_run. eexists. reflexivity.
Qed.

(** ** Pressing Connect twice *)

Lemma occupied_app (attr : string) (a b : list (string * string)) :
  occupied attr (a ++ b) = (occupied attr a ++ occupied attr b)%list.
Proof.
  unfold occupied. induction a as [|l rest IH]; [reflexivity|].
  cbn [app Cmds.filter_map].
  destruct (Cmds.element_index attr (snd l)); cbn [app]; now rewrite IH.
Qed.

Lemma single_light_run (blocker t : string) (s : Session) :
  for_each [t] (connect_light blocker) s = connect_light blocker t s.
Proof.
  cbn [for_each]. unfold bind, ret.
  destruct (connect_light blocker t s) as [[[]|e] s1]; reflexivity.
Qed.

(** X16: [connect_blocker] does not look for a connection that is already
    there.  With a valid blocker, one listed light that resolves to a
    shape, two free indices below 1000 on its filter array and the two
    elements it comes to use not locked, running [connect_blocker] and
    then running it again leaves two more connections from the blocker's
    message plug on that array, the first at the least free index and the
    second at a greater index. *)
Theorem connect_twice_connects_twice
  (t light_shape : string) (more : list string) (s : Session) :
  let w := host s in
  let blocker := lightBlockerField w in
  let attr := light_shape ++ ".aiFilters" in
  let occ := occupied attr (links w) in
  let idx1 := next_free_index (none_if_empty occ) in
  let idx2 := next_free_index (none_if_empty (occ ++ [idx1])) in
  blocker_valid w = true ->
  light_names w = [t] ->
  resolves w t = true ->
  Cmds.lookup_children t (children w) = light_shape :: more ->
  (exists i j, 0 <= i < j /\ j < 1000 /\ ~ In i occ /\ ~ In j occ) ->
  ~ In (dest_attr light_shape idx1) (locked w) ->
  ~ In (dest_attr light_shape idx2) (locked w) ->
  idx1 < idx2
  /\ exists s1 s2,
       connect_blocker s = (Ok tt, s1)
       /\ connect_blocker s1 = (Ok tt, s2)
       /\ links (host s2)
          = List.app (links w)
              [(blocker ++ ".message", dest_attr light_shape idx1);
               (blocker ++ ".message", dest_attr light_shape idx2)].
Proof.
  intros w blocker attr occ idx1 idx2 Hv Hnames Hres Hsh
         [i [j [Hij [Hj [Hi_free Hj_free]]]]] Hl1 Hl2.
  assert (Hrun : forall st,
             blocker_valid (host st) = true ->
             light_names (host st) = [t] ->
             connect_blocker st
             = connect_light (lightBlockerField (host st)) t st).
  { intros st Hvs Hns. rewrite connect_blocker_run. cbv zeta.
    rewrite blocker_check, Hvs. cbn [negb]. unfold light_names in Hns.
    destruct (lightListTSL (host st)) eqn:E; [discriminate|].
    rewrite Hns. apply single_light_run. }
  destruct (connect_light_fresh blocker t light_shape more s Hres Hsh)
    as [Hmex1 H1].
  { exists i. split; [lia | exact Hi_free]. }
  { exact Hl1. }
  fold w attr occ idx1 in Hmex1, H1.
  set (w1 := Cmds.set_links
               (links w ++ [(blocker ++ ".message",
                             dest_attr light_shape idx1)]) w) in *.
  set (s1 := mkSession w1
               (out s ++ [Printed ("Connected " ++ blocker ++ ".message -> "
                                   ++ dest_attr light_shape idx1)])) in *.
  assert (Hocc1 : occupied attr (links w1) = (occ ++ [idx1])%list).
  { unfold w1. cbn [links Cmds.set_links]. rewrite occupied_app.
    unfold occupied at 2. cbn [Cmds.filter_map snd].
    assert (Hr := proj1 (dest_attr_recognised blocker light_shape idx1)).
    fold attr in Hr. now rewrite Hr. }
  assert (F := connect_light_fresh blocker t light_shape more s1).
  cbv zeta in F. change (host s1) with w1 in F. fold attr in F.
  rewrite Hocc1 in F. fold idx2 in F.
  destruct F as [Hmex2 H2].
  { exact Hres. }
  { exact Hsh. }
  { destruct Hmex1 as [H0 [Hnot1 Hbelow1]].
    destruct (Z.eq_dec i idx1) as [E|E].
    - exists j. split; [lia|]. intros Hin. apply in_app_or in Hin.
      destruct Hin as [Hin|[Hin|[]]]; [contradiction | lia].
    - exists i. split; [lia|]. intros Hin. apply in_app_or in Hin.
      destruct Hin as [Hin|[Hin|[]]]; [contradiction | congruence]. }
  { exact Hl2. }
  assert (Hlt : idx1 < idx2).
  { destruct Hmex1 as [H0 [Hnot1 Hbelow1]].
    destruct Hmex2 as [H0' [Hnot2 Hbelow2]].
    destruct (Z.lt_trichotomy idx1 idx2) as [H|[H|H]]; [exact H| |].
    - exfalso. apply Hnot2. apply in_or_app. right. left. exact H.
    - exfalso. apply Hnot2. apply in_or_app. left. apply Hbelow1. lia. }
  split; [exact Hlt|]. exists s1. eexists.
  split; [|split].
  - rewrite (Hrun s Hv Hnames). exact H1.
  - rewrite (Hrun s1 Hv Hnames). exact H2.
  - cbn [host links Cmds.set_links]. unfold w1. cbn [links Cmds.set_links].
    now rewrite <- app_assoc.
Qed.

Lemma connect_twice_connects_twice_witness :
  exists s1 s2,
    connect_blocker (mkSession studio []) = (Ok tt, s1)
    /\ connect_blocker s1 = (Ok tt, s2)
    /\ links (host s2)
       = [("blk.message", "|key|keyShape.aiFilters[0]");
          ("blk.message", "|key|keyShape.aiFilters[1]")].
Proof.
  destruct (connect_twice_connects_twice "key" "|key|keyShape" []
              (mkSession studio [])) as [_ [s1 [s2 [H1 [H2 H3]]]]].
  - reflexivity.
  - reflexivity.
  - reflexivity.
  - reflexivity.
  - exists 0, 1. repeat split; try lia; intros [].
  - intros [].
  - intros [].
  - exists s1, s2. split; [exact H1|]. split; [exact H2|].
    rewrite H3. reflexivity.
Defined.

Lemma disconnect_blocker_spares_witness :
  In ("old.message", "|key|keyShape.aiFilters[1]")
     (links (host (snd (disconnect_blocker (mkSession wired []))))).
Proof.
  apply (proj2 (disconnect_blocker_spares (mkSession wired []))).
  - simpl. tauto.
  - left. discriminate.
Defined.
